(** * search-ui: the analytics endpoint and the AnalyticsSuggestions component

    A shallow embedding of two TypeScript classes of the search UI:

    - [AnalyticsSuggestions] (src/ui/AnalyticsSuggestions/AnalyticsSuggestions.ts),
      the component that renders the top queries of the analytics service in
      the omnibox and logs the suggestion the user picks;
    - [AnalyticsEndpoint], the REST client that posts the analytics events and
      keeps the visit id and the visitor cookie.

    Conventions.  A JavaScript string is a sequence of code units and
    [s.length] counts them; strings are Stdlib strings here, one character for
    one code unit, and nothing below depends on the size of the alphabet.
    JavaScript numbers that hold lengths, budgets and indexes are integers
    ([Z] or [nat]).  An object used as a dictionary is a [gmap] over its own
    keys, together with its prototype: the names that every object inherits
    ([constructor], [toString]) are no keys of it but are found by
    [object[key]], and an assignment to [__proto__] makes no own key and
    replaces the prototype.  An exception that a call ends in is an effect
    of its own.  A promise is followed through its settlement. *)

From Stdlib Require Import ZArith Ascii String List Lia DecimalString.
From stdpp Require Import gmap strings list fin_maps.
From Equations Require Import Equations.

Local Open Scope Z_scope.

(** ** The Underscore functions the two classes call *)

Module Underscore.

(** [_.filter(list, predicate)]: the predicate receives the value, its index
    and the list that is being filtered. *)
Fixpoint filter_from {A} (predicate : A -> nat -> list A -> bool)
    (array : list A) (index : nat) (rest : list A) : list A :=
  match rest with
  | [] => []
  | value :: rest' =>
      if predicate value index array
      then value :: filter_from predicate array (S index) rest'
      else filter_from predicate array (S index) rest'
  end.

Definition filter {A} (array : list A) (predicate : A -> nat -> list A -> bool)
    : list A :=
  filter_from predicate array 0%nat array.

(** [_.map(list, iteratee)] on an array. *)
Definition map {A B} (array : list A) (iteratee : A -> B) : list B :=
  List.map iteratee array.

(** [_.reduceRight(list, iteratee, memo)]: the last element is visited
    first, and each visit receives the memo of the visit before. *)
Definition reduceRight {A M} (array : list A) (iteratee : M -> A -> M)
    (memo : M) : M :=
  fold_right (fun value m => iteratee m value) memo array.

(** [_.indexOf(array, value)]: the first index that holds the value under
    [===], and [-1] when there is none. *)
Fixpoint indexOf_from `{EqDecision A} (index : Z) (array : list A) (value : A) : Z :=
  match array with
  | [] => -1
  | x :: array' =>
      if decide (x = value) then index else indexOf_from (index + 1) array' value
  end.

Definition indexOf `{EqDecision A} (array : list A) (value : A) : Z :=
  indexOf_from 0 array value.

(** [_.pluck(list, propertyName)]. *)
Definition pluck {A B} (array : list A) (property : A -> B) : list B :=
  List.map property array.

(** [_.first(array)]: [undefined] on an empty array. *)
Definition first {A} (array : list A) : option A := head array.

(** [_.isEmpty(array)]. *)
Definition isEmpty {A} (array : list A) : bool :=
  match array with [] => true | _ => false end.

(** [_.findWhere(object, properties)], for an object used as a dictionary:
    the first of its values that passes the test. *)
Definition findWhere `{Countable K} {V} (object : gmap K V) (test : V -> bool)
    : option V :=
  match list_find (fun kv => test (snd kv) = true) (map_to_list object) with
  | Some (_, (_, value)) => Some value
  | None => None
  end.

End Underscore.

(** ** Strings *)

(** [s.replace(/;/g, '')]: every [;] is taken out. *)
Fixpoint replace_semicolons (s : string) : string :=
  match s with
  | EmptyString => EmptyString
  | String c s' =>
      if Ascii.eqb c ";" then replace_semicolons s'
      else String c (replace_semicolons s')
  end.

(** [array.join(';')]. *)
Definition join (array : list string) : string := String.concat ";" array.

(** [n] copies of a character; used to write long inputs down. *)
Fixpoint repeat_char (c : ascii) (n : nat) : string :=
  match n with
  | O => EmptyString
  | S n' => String c (repeat_char c n')
  end.

(** The characters of a string. *)
Definition chars (s : string) : list ascii := list_ascii_of_string s.

(** The lengths of the entries, added up (no separator counted). *)
Definition total_length (array : list string) : Z :=
  fold_right (fun s acc => Z.of_nat (String.length s) + acc) 0 array.

(** How a promise settles. *)
Inductive settled (R E : Type) :=
| Fulfilled (value : R)
| Rejected (reason : E).
Arguments Fulfilled {R E} value.
Arguments Rejected {R E} reason.

(** ** AnalyticsSuggestions *)

Module AnalyticsSuggestions.

(** *** Cleaning the custom data *)

(** The first statement of [cleanCustomData]: an entry stays when it is the
    first one or differs from the entry before it in the array that is being
    filtered. *)
Definition differs_from_previous (partial : string) (pos : nat)
    (array : list string) : bool :=
  (pos =? 0)%nat
  || match array !! (pos - 1)%nat with
     | Some previous => negb (String.eqb partial previous)
     | None => true
     end.

Definition collapse_consecutive (toClean : list string) : list string :=
  Underscore.filter toClean differs_from_previous.

(** The second statement: [;] is taken out of every entry. *)
Definition strip_delimiter (toClean : list string) : list string :=
  Underscore.map toClean replace_semicolons.

(** The callback of the [reduceRight]: the memo is the number of characters
    seen so far, and the array [reducedToRejectLengthOrLess] it pushes onto
    is carried along with it. *)
Definition reduce_step (rejectLength : Z) (state : Z * list string)
    (partial : string) : Z * list string :=
  let '(memo, reduced) := state in
  let totalSoFar := memo + Z.of_nat (String.length partial) in
  (totalSoFar,
   if totalSoFar <=? rejectLength then reduced ++ [partial] else reduced).

(** The third statement: the scan from the right, then [reverse()]. *)
Definition reducedToRejectLengthOrLess (toClean : list string)
    (rejectLength : Z) : list string :=
  rev (snd (Underscore.reduceRight toClean (reduce_step rejectLength) (0, []))).

(** One pass of the body, up to the test on the joined length. *)
Definition pass (toClean : list string) (rejectLength : Z) : list string :=
  reducedToRejectLengthOrLess
    (strip_delimiter (collapse_consecutive toClean)) rejectLength.

(** The memo of the scan is the total length of what was scanned. *)
Lemma reduceRight_memo rejectLength toClean :
  fst (Underscore.reduceRight toClean (reduce_step rejectLength) (0, []))
  = total_length toClean.
Proof.
  unfold Underscore.reduceRight.
  induction toClean as [|partial rest IH]; simpl; [reflexivity|].
  destruct (fold_right _ _ rest) as [memo reduced]; simpl in *.
  rewrite IH. lia.
Qed.

Lemma total_length_nonneg array : 0 <= total_length array.
Proof. induction array; simpl; lia. Qed.

(** Under a negative budget the scan keeps nothing. *)
Lemma reduced_negative toClean rejectLength :
  rejectLength < 0 -> reducedToRejectLengthOrLess toClean rejectLength = [].
Proof.
  intros Hneg. unfold reducedToRejectLengthOrLess.
  assert (Hnil : snd (Underscore.reduceRight toClean (reduce_step rejectLength) (0, [])) = []);
    [|rewrite Hnil; reflexivity].
  pose proof (reduceRight_memo rejectLength) as Hmemo.
  unfold Underscore.reduceRight in *.
  induction toClean as [|partial rest IH]; simpl; [reflexivity|].
  specialize (Hmemo rest).
  destruct (fold_right _ _ rest) as [memo reduced]; simpl in *.
  subst memo. pose proof (total_length_nonneg rest).
  rewrite IH.
  destruct (Z.leb_spec (total_length rest + Z.of_nat (String.length partial)) rejectLength);
    [lia|reflexivity].
Qed.

Definition inspect {A} (a : A) : {b : A | a = b} := exist _ a eq_refl.

(** [cleanCustomData(toClean, rejectLength = 256)].  The retry lowers the
    budget by ten; it is only taken when something was kept, so the budget
    is not negative then, which bounds the number of retries. *)
Equations? cleanCustomData (toClean : list string) (rejectLength : Z) : string
    by wf (Z.to_nat (rejectLength + 10)) lt :=
  cleanCustomData toClean rejectLength
    with inspect (256 <=? Z.of_nat (String.length (join (pass toClean rejectLength)))) := {
    | exist _ true _ => cleanCustomData (pass toClean rejectLength) (rejectLength - 10)
    | exist _ false _ => join (pass toClean rejectLength) }.
Proof.
  destruct (Z.ltb_spec rejectLength 0) as [Hneg|Hpos]; [|lia].
  unfold pass in e. rewrite reduced_negative in e by assumption.
  discriminate e.
Qed.

(** The default value of the second parameter. *)
Definition default_rejectLength : Z := 256.

(** *** JavaScript values the component tests *)

(** A number, as far as the component can tell numbers apart: it asks
    whether one is [NaN], compares one with an array index, and uses one as
    a property key.  [NonIndex] stands for the other numbers (fractions,
    the infinities) and carries what [ToString] gives for them. *)
Inductive number :=
| NaN
| Int (z : Z)
| NonIndex (repr : string).

(** The argument of [selectSuggestion]. *)
Inductive Suggestion :=
| Num (n : number)
| Str (s : string).

Definition is_digit (c : ascii) : bool :=
  let n := nat_of_ascii c in ((48 <=? n) && (n <=? 57))%nat.

Definition is_hex_digit (c : ascii) : bool :=
  let n := nat_of_ascii c in
  (is_digit c || (65 <=? n) && (n <=? 70) || (97 <=? n) && (n <=? 102))%nat.

Definition is_octal_digit (c : ascii) : bool :=
  let n := nat_of_ascii c in ((48 <=? n) && (n <=? 55))%nat.

Definition is_binary_digit (c : ascii) : bool :=
  let n := nat_of_ascii c in ((48 <=? n) && (n <=? 49))%nat.

(** White space and line terminators among the code units below 256. *)
Definition is_white_space (c : ascii) : bool :=
  let n := nat_of_ascii c in
  ((9 <=? n) && (n <=? 13) || (n =? 32) || (n =? 160))%nat.

Fixpoint trim_start (l : list ascii) : list ascii :=
  match l with
  | c :: l' => if is_white_space c then trim_start l' else l
  | [] => []
  end.

Definition trim (l : list ascii) : list ascii :=
  rev (trim_start (rev (trim_start l))).

Fixpoint skip_digits (l : list ascii) : list ascii :=
  match l with
  | c :: l' => if is_digit c then skip_digits l' else l
  | [] => []
  end.

Definition starts_with_digit (l : list ascii) : bool :=
  match l with
  | c :: _ => is_digit c
  | [] => false
  end.

Definition all_digits (l : list ascii) : bool :=
  starts_with_digit l && bool_decide (skip_digits l = []).

(** Nothing, or an exponent part. *)
Definition exponent_opt (l : list ascii) : bool :=
  match l with
  | [] => true
  | c :: l' =>
      (Ascii.eqb c "e" || Ascii.eqb c "E")
      && match l' with
         | sign :: l'' =>
             if Ascii.eqb sign "+" || Ascii.eqb sign "-"
             then all_digits l'' else all_digits l'
         | [] => false
         end
  end.

(** [StrUnsignedDecimalLiteral]. *)
Definition unsigned_decimal (l : list ascii) : bool :=
  bool_decide (l = chars "Infinity")
  || match skip_digits l with
     | c :: fraction =>
         if Ascii.eqb c "."
         then (starts_with_digit l || starts_with_digit fraction)
              && exponent_opt (skip_digits fraction)
         else starts_with_digit l && exponent_opt (c :: fraction)
     | [] => starts_with_digit l
     end.

(** [StrDecimalLiteral]. *)
Definition decimal (l : list ascii) : bool :=
  match l with
  | c :: l' =>
      if Ascii.eqb c "+" || Ascii.eqb c "-"
      then unsigned_decimal l' else unsigned_decimal l
  | [] => false
  end.

(** [NonDecimalIntegerLiteral]. *)
Definition non_decimal (l : list ascii) : bool :=
  match l with
  | zero :: radix :: digits =>
      Ascii.eqb zero "0"
      && negb (bool_decide (digits = []))
      && (if Ascii.eqb radix "x" || Ascii.eqb radix "X" then forallb is_hex_digit digits
          else if Ascii.eqb radix "o" || Ascii.eqb radix "O" then forallb is_octal_digit digits
          else if Ascii.eqb radix "b" || Ascii.eqb radix "B" then forallb is_binary_digit digits
          else false)
  | _ => false
  end.

(** Whether [Number(s)] is [NaN]: the string, white space at its ends
    apart, is neither empty nor a numeric literal. *)
Definition StringToNumber_is_NaN (s : string) : bool :=
  let l := trim (chars s) in
  negb (bool_decide (l = []) || decimal l || non_decimal l).

(** The global [isNaN]. *)
Definition isNaN (suggestion : Suggestion) : bool :=
  match suggestion with
  | Num NaN => true
  | Num _ => false
  | Str s => StringToNumber_is_NaN s
  end.

(** The key that [object[suggestion]] reads. *)
Definition ToPropertyKey (suggestion : Suggestion) : string :=
  match suggestion with
  | Str s => s
  | Num NaN => "NaN"
  | Num (Int z) => NilZero.string_of_int (Z.to_int z)
  | Num (NonIndex repr) => repr
  end.

(** [pos === suggestion], for a [pos] that is an array index. *)
Definition strict_equals (pos : nat) (suggestion : Suggestion) : bool :=
  match suggestion with
  | Num (Int z) => z =? Z.of_nat pos
  | _ => false
  end.

(** *** The component *)

(** A rendered row: the node, and the text it shows. *)
Record HTMLElement := { node : nat; textContent : string }.

(** What [buildOmniboxElement] returns, with the rows that
    [findAll('.coveo-omnibox-selectable')] finds in it. *)
Record OmniboxElement := { root : nat; findAll_selectable : list HTMLElement }.

Record Displayed := { element : HTMLElement; pos : nat }.

Record Result := { value : string }.

Record IPopulateOmniboxEventArgs := { completeQueryExpression_word : string }.

Record AnalyticsSuggestionsOptions := {
  omniboxZIndex : Z;
  numberOfSuggestions : Z
}.

Definition default_options : AnalyticsSuggestionsOptions :=
  {| omniboxZIndex := 52; numberOfSuggestions := 5 |}.

Record IAnalyticsTopSuggestionMeta := {
  meta_partialQueries : string;
  suggestionRanking : Z;
  suggestions : string;
  partialQuery : string
}.

(** What the promise pushed on [args.rows] resolves with. *)
Record OmniboxDataRow := {
  row_element : option OmniboxElement;
  row_zIndex : option Z
}.

(** What the component does to the world around it. *)
Inductive Effect :=
| usageAnalytics_getTopQueries (pageSize : Z) (queryText : string)
| rows_push_deferred
| trigger_click (element : HTMLElement)
| args_clear
| args_closeOmnibox
| queryStateModel_set_q (value : string)
| usageAnalytics_logSearchEvent (meta : IAnalyticsTopSuggestionMeta)
| queryController_executeQuery
| throw_TypeError.

(** The component.  The object in [currentlyDisplayedSuggestions] is an
    object literal: it is given by its own properties and by its prototype,
    which is [Object.prototype] ([None] in
    [currentlyDisplayedSuggestions_prototype]) until an assignment to
    [__proto__] puts a record in its place. *)
Record AnalyticsSuggestions := {
  options : AnalyticsSuggestionsOptions;
  partialQueries : list string;
  lastSuggestions : list string;
  resultsToBuildWith : list Result;
  currentlyDisplayedSuggestions : option (gmap string Displayed);
  currentlyDisplayedSuggestions_prototype : option Displayed
}.

Definition constructor (opts : AnalyticsSuggestionsOptions) : AnalyticsSuggestions :=
  {| options := opts; partialQueries := []; lastSuggestions := [];
     resultsToBuildWith := []; currentlyDisplayedSuggestions := None;
     currentlyDisplayedSuggestions_prototype := None |}.

(** The loop over the selectable rows, [object[text] = {element, pos}], as far
    as the own properties go: each row is filed under its text, but for a
    row that reads [__proto__], for which the assignment makes no own
    property. *)
Fixpoint record_displayed (i : nat) (selectables : list HTMLElement)
    (displayed : gmap string Displayed) : gmap string Displayed :=
  match selectables with
  | [] => displayed
  | selectable :: rest =>
      record_displayed (S i) rest
        (if String.eqb (textContent selectable) "__proto__" then displayed
         else <[textContent selectable := {| element := selectable; pos := i |}]> displayed)
  end.

(** The same loop, as far as the prototype goes: the record of a row that
    reads [__proto__] becomes the prototype of the object. *)
Fixpoint record_prototype (i : nat) (selectables : list HTMLElement)
    (prototype : option Displayed) : option Displayed :=
  match selectables with
  | [] => prototype
  | selectable :: rest =>
      record_prototype (S i) rest
        (if String.eqb (textContent selectable) "__proto__"
         then Some {| element := selectable; pos := i |}
         else prototype)
  end.

(** What [object[key]] can give on that object. *)
Inductive PropertyValue :=
| value_record (shown : Displayed)
| value_element (element : HTMLElement)
| value_number (n : nat)
| value_inherited
| value_undefined.

(** The names that an object literal inherits from [Object.prototype]. *)
Definition Object_prototype_names : list string :=
  ["constructor"; "toString"; "toLocaleString"; "valueOf"; "hasOwnProperty";
   "isPrototypeOf"; "propertyIsEnumerable"; "__defineGetter__"; "__defineSetter__";
   "__lookupGetter__"; "__lookupSetter__"].

Definition inherited_from_Object (key : string) : PropertyValue :=
  if bool_decide (key ∈ Object_prototype_names) then value_inherited else value_undefined.

(** [object[key]]: an own property; or, for [__proto__], the prototype; or
    what the prototype gives, a record in its place giving its [element] and
    its [pos] before [Object.prototype] is asked. *)
Definition get_property (displayed : gmap string Displayed)
    (prototype : option Displayed) (key : string) : PropertyValue :=
  match displayed !! key with
  | Some shown => value_record shown
  | None =>
      if String.eqb key "__proto__" then
        match prototype with
        | Some shown => value_record shown
        | None => value_inherited
        end
      else
        match prototype with
        | Some shown =>
            if String.eqb key "element" then value_element (element shown)
            else if String.eqb key "pos" then value_number (pos shown)
            else inherited_from_Object key
        | None => inherited_from_Object key
        end
  end.

(** A value in a condition. *)
Definition truthy_value (found : PropertyValue) : bool :=
  match found with
  | value_record _ | value_element _ | value_inherited => true
  | value_number n => negb (n =? 0)%nat
  | value_undefined => false
  end.

(** [$$(found.element).trigger('click')].  Only a record has an [element];
    on anything else [found.element] is [undefined], and [$$] (utils/Dom,
    not among the sources) wraps it in a [Dom] whose [trigger] reads a
    property of it: a [TypeError] is thrown and no event is dispatched. *)
Definition trigger_click_on (found : PropertyValue) : list Effect :=
  match found with
  | value_record shown => [trigger_click (element shown)]
  | _ => [throw_TypeError]
  end.

Definition selectSuggestion (this : AnalyticsSuggestions) (suggestion : Suggestion)
    : AnalyticsSuggestions * list Effect :=
  match currentlyDisplayedSuggestions this with
  | Some displayed =>
      if isNaN suggestion then
        let found :=
          get_property displayed (currentlyDisplayedSuggestions_prototype this)
            (ToPropertyKey suggestion) in
        if truthy_value found then (this, trigger_click_on found) else (this, [])
      else
        match Underscore.findWhere displayed
                (fun shown => strict_equals (pos shown) suggestion) with
        | Some currentlySuggested =>
            (this, [trigger_click (element currentlySuggested)])
        | None => (this, [])
        end
  | None => (this, [])
  end.

Section Populate.

(** [SuggestionForOmnibox.buildOmniboxElement], of another file. *)
Variable buildOmniboxElement :
  list Result -> IPopulateOmniboxEventArgs -> OmniboxElement.

(** [handlePopulateOmnibox], up to the point where the promise is pushed
    on the rows: the query for the top queries has been sent. *)
Definition handlePopulateOmnibox (this : AnalyticsSuggestions)
    (args : IPopulateOmniboxEventArgs) : AnalyticsSuggestions * list Effect :=
  (this,
   [usageAnalytics_getTopQueries (numberOfSuggestions (options this))
      (completeQueryExpression_word args);
    rows_push_deferred]).

(** The callback given to [searchPromise.then]; it returns what it
    resolves the pushed promise with. *)
Definition searchPromise_then (this : AnalyticsSuggestions)
    (args : IPopulateOmniboxEventArgs) (results : list string)
    : AnalyticsSuggestions * OmniboxDataRow :=
  let resultsToBuildWith' :=
    Underscore.map results (fun result => {| value := result |}) in
  let partialQueries' :=
    if negb (Underscore.isEmpty resultsToBuildWith')
       && negb (String.eqb (completeQueryExpression_word args) "")
    then partialQueries this ++ [completeQueryExpression_word args]
    else partialQueries this in
  let element := buildOmniboxElement resultsToBuildWith' args in
  ({| options := options this;
      partialQueries := partialQueries';
      lastSuggestions := results;
      resultsToBuildWith := resultsToBuildWith';
      currentlyDisplayedSuggestions :=
        Some (record_displayed 0 (findAll_selectable element) ∅);
      currentlyDisplayedSuggestions_prototype :=
        record_prototype 0 (findAll_selectable element) None |},
   {| row_element := Some element;
      row_zIndex := Some (omniboxZIndex (options this)) |}).

(** The callback given to [searchPromise.catch]. *)
Definition searchPromise_catch (this : AnalyticsSuggestions)
    : AnalyticsSuggestions * OmniboxDataRow :=
  (this, {| row_element := None; row_zIndex := None |}).

(** The promise pushed on the rows, once the query for the top queries
    has settled: both callbacks call [resolve], none calls [reject]. *)
Definition deferred_settles {E} (this : AnalyticsSuggestions)
    (args : IPopulateOmniboxEventArgs) (searchPromise : settled (list string) E)
    : AnalyticsSuggestions * settled OmniboxDataRow E :=
  match searchPromise with
  | Fulfilled results =>
      let '(this', row) := searchPromise_then this args results in
      (this', Fulfilled row)
  | Rejected _ =>
      let '(this', row) := searchPromise_catch this in
      (this', Fulfilled row)
  end.

End Populate.

(** The handler bound to [QueryEvents.querySuccess]. *)
Definition querySuccess (this : AnalyticsSuggestions) : AnalyticsSuggestions :=
  {| options := options this; partialQueries := [];
     lastSuggestions := lastSuggestions this;
     resultsToBuildWith := resultsToBuildWith this;
     currentlyDisplayedSuggestions := currentlyDisplayedSuggestions this;
     currentlyDisplayedSuggestions_prototype :=
       currentlyDisplayedSuggestions_prototype this |}.

Definition onRowSelection (this : AnalyticsSuggestions) (chosen : string)
    (args : IPopulateOmniboxEventArgs) : AnalyticsSuggestions * list Effect :=
  (this,
   [args_clear; args_closeOmnibox; queryStateModel_set_q chosen;
    usageAnalytics_logSearchEvent
      {| meta_partialQueries :=
           cleanCustomData (partialQueries this) default_rejectLength;
         suggestionRanking :=
           Underscore.indexOf (Underscore.pluck (resultsToBuildWith this) value) chosen;
         suggestions := cleanCustomData (lastSuggestions this) default_rejectLength;
         partialQuery := completeQueryExpression_word args |};
    queryController_executeQuery]).

(** What can happen to a component between two looks at it. *)
Inductive transition
    (buildOmniboxElement : list Result -> IPopulateOmniboxEventArgs -> OmniboxElement)
    : AnalyticsSuggestions -> AnalyticsSuggestions -> Prop :=
| populate_settles this args (searchPromise : settled (list string) unit) :
    transition buildOmniboxElement this
      (fst (deferred_settles buildOmniboxElement this args searchPromise))
| query_succeeds this :
    transition buildOmniboxElement this (querySuccess this)
| suggestion_selected this suggestion :
    transition buildOmniboxElement this (fst (selectSuggestion this suggestion))
| row_selected this chosen args :
    transition buildOmniboxElement this (fst (onRowSelection this chosen args)).

Definition reachable buildOmniboxElement opts (this : AnalyticsSuggestions) : Prop :=
  rtc (transition buildOmniboxElement) (constructor opts) this.

End AnalyticsSuggestions.

(** ** AnalyticsEndpoint *)

Module AnalyticsEndpoint.

(** *** What the endpoint borrows from the platform and from other files *)

Definition hex_digit (n : nat) : ascii :=
  match n with
  | 0 => "0" | 1 => "1" | 2 => "2" | 3 => "3" | 4 => "4" | 5 => "5"
  | 6 => "6" | 7 => "7" | 8 => "8" | 9 => "9" | 10 => "A" | 11 => "B"
  | 12 => "C" | 13 => "D" | 14 => "E" | _ => "F"
  end%nat%char.

Definition percent (byte : nat) : string :=
  String "%" (String (hex_digit (byte / 16)) (String (hex_digit (byte mod 16)) "")).

Definition unreserved (c : ascii) : bool :=
  let n := nat_of_ascii c in
  ((48 <=? n) && (n <=? 57) || (65 <=? n) && (n <=? 90) || (97 <=? n) && (n <=? 122)
   || bool_decide (c ∈ chars "-_.!~*'()"))%nat.

(** [encodeURIComponent], on the code units below 256: what is not
    unreserved is written as the bytes of its UTF-8 form. *)
Fixpoint encodeURIComponent (s : string) : string :=
  match s with
  | EmptyString => EmptyString
  | String c s' =>
      let n := nat_of_ascii c in
      (if unreserved c then String c ""
       else if (n <? 128)%nat then percent n
       else percent (192 + n / 64) +:+ percent (128 + n mod 64))
      +:+ encodeURIComponent s'
  end.

(** A string in a condition: [undefined] and the empty string are falsy. *)
Definition truthy (value : option string) : bool :=
  match value with
  | Some s => negb (String.eqb s "")
  | None => false
  end.

(** Modelled from the spec: [QueryUtils.mergePath] of utils/QueryUtils, which
    is not among the sources; the spec gives the target URL as the service
    URL followed by the path. *)
Definition mergePath (url path : string) : string := url +:+ path.

(** Modelled from the spec: [Cookie] of utils/CookieUtils, which is not among
    the sources; a cookie is a named value written with a lifetime. *)
Module Cookie.
Definition get (name : string) (cookies : gmap string (string * Z)) : option string :=
  fst <$> cookies !! name.
Definition set (name value : string) (expiration : Z)
    (cookies : gmap string (string * Z)) : gmap string (string * Z) :=
  <[name := (value, expiration)]> cookies.
End Cookie.

(** The event interfaces (rest/SearchEvent, rest/ClickEvent, CustomEvent)
    are only passed on to the caller; an event is its JSON text. *)
Definition ISearchEvent := string.
Definition IClickEvent := string.
Definition ICustomEvent := string.

(** The [data] argument of [sendToService]. *)
Inductive Data :=
| SearchEvents (searchEvents : list ISearchEvent)
| ClickEvent (documentViewEvent : IClickEvent)
| CustomEvent (customEvent : ICustomEvent).

(** [IAPIAnalyticsEventResponse], and the decoded body of a response as
    [handleAnalyticsEventResponse] probes it. *)
Record IAPIAnalyticsEventResponse := {
  visitId : option string;
  visitorId : option string
}.

Record Response := {
  response_visitId : option string;
  response_visitorId : option string;
  searchEventResponses : option (list IAPIAnalyticsEventResponse)
}.

Record IErrorResponse := { statusCode : Z; body : string }.

(** The argument of [endpointCaller.call]. *)
Record IEndpointCallParameters := {
  errorsAsSuccess : bool;
  method : string;
  queryString : list string;
  requestData : Data;
  url : string;
  responseType : string;
  requestDataType : string
}.

Record Beacon := {
  beacon_url : string;
  beacon_queryString : list string;
  beacon_data : Data
}.

(** The closure [() => this.sendToService(data, path, paramName)]. *)
Record Deferred := {
  deferred_data : Data;
  deferred_path : string;
  deferred_paramName : string
}.

Record IAnalyticsEndpointOptions := {
  token : string;
  serviceUrl : string;
  options_organization : option string
}.

(** *** The state

    The fields of the instance ([options], [organization], [this_visitId]),
    the statics of the class ([CUSTOM_ANALYTICS_VERSION], [pendingRequest]),
    and what the endpoint acts on: the cookies, the calls handed to the
    endpoint caller that have not settled, the beacons, the [finally]
    callbacks waiting on a promise, and the callbacks whose promise has
    settled and that have not run yet.  A promise made by
    [sendUsingEndpointCaller] is named by a number, the same as its call. *)
Record State := {
  options : IAnalyticsEndpointOptions;
  organization : option string;
  this_visitId : option string;
  CUSTOM_ANALYTICS_VERSION : option string;
  pendingRequest : option nat;
  cookies : gmap string (string * Z);
  navigator_sendBeacon : bool;
  calls : list (nat * IEndpointCallParameters);
  beacons : list Beacon;
  waiting : list (nat * Deferred);
  ready : list Deferred;
  beforeunload_listeners : nat;
  promises : nat
}.

(** Assignments to one field. *)
Definition set_this_visitId (value : option string) (st : State) : State :=
  {| options := options st; organization := organization st;
     this_visitId := value;
     CUSTOM_ANALYTICS_VERSION := CUSTOM_ANALYTICS_VERSION st;
     pendingRequest := pendingRequest st; cookies := cookies st;
     navigator_sendBeacon := navigator_sendBeacon st; calls := calls st;
     beacons := beacons st; waiting := waiting st; ready := ready st;
     beforeunload_listeners := beforeunload_listeners st;
     promises := promises st |}.

Definition set_pendingRequest (value : option nat) (st : State) : State :=
  {| options := options st; organization := organization st;
     this_visitId := this_visitId st;
     CUSTOM_ANALYTICS_VERSION := CUSTOM_ANALYTICS_VERSION st;
     pendingRequest := value; cookies := cookies st;
     navigator_sendBeacon := navigator_sendBeacon st; calls := calls st;
     beacons := beacons st; waiting := waiting st; ready := ready st;
     beforeunload_listeners := beforeunload_listeners st;
     promises := promises st |}.

Definition set_cookies (value : gmap string (string * Z)) (st : State) : State :=
  {| options := options st; organization := organization st;
     this_visitId := this_visitId st;
     CUSTOM_ANALYTICS_VERSION := CUSTOM_ANALYTICS_VERSION st;
     pendingRequest := pendingRequest st; cookies := value;
     navigator_sendBeacon := navigator_sendBeacon st; calls := calls st;
     beacons := beacons st; waiting := waiting st; ready := ready st;
     beforeunload_listeners := beforeunload_listeners st;
     promises := promises st |}.

Definition set_calls (value : list (nat * IEndpointCallParameters)) (st : State) : State :=
  {| options := options st; organization := organization st;
     this_visitId := this_visitId st;
     CUSTOM_ANALYTICS_VERSION := CUSTOM_ANALYTICS_VERSION st;
     pendingRequest := pendingRequest st; cookies := cookies st;
     navigator_sendBeacon := navigator_sendBeacon st; calls := value;
     beacons := beacons st; waiting := waiting st; ready := ready st;
     beforeunload_listeners := beforeunload_listeners st;
     promises := promises st |}.

Definition set_beacons (value : list Beacon) (st : State) : State :=
  {| options := options st; organization := organization st;
     this_visitId := this_visitId st;
     CUSTOM_ANALYTICS_VERSION := CUSTOM_ANALYTICS_VERSION st;
     pendingRequest := pendingRequest st; cookies := cookies st;
     navigator_sendBeacon := navigator_sendBeacon st; calls := calls st;
     beacons := value; waiting := waiting st; ready := ready st;
     beforeunload_listeners := beforeunload_listeners st;
     promises := promises st |}.

Definition set_waiting (value : list (nat * Deferred)) (st : State) : State :=
  {| options := options st; organization := organization st;
     this_visitId := this_visitId st;
     CUSTOM_ANALYTICS_VERSION := CUSTOM_ANALYTICS_VERSION st;
     pendingRequest := pendingRequest st; cookies := cookies st;
     navigator_sendBeacon := navigator_sendBeacon st; calls := calls st;
     beacons := beacons st; waiting := value; ready := ready st;
     beforeunload_listeners := beforeunload_listeners st;
     promises := promises st |}.

Definition set_ready (value : list Deferred) (st : State) : State :=
  {| options := options st; organization := organization st;
     this_visitId := this_visitId st;
     CUSTOM_ANALYTICS_VERSION := CUSTOM_ANALYTICS_VERSION st;
     pendingRequest := pendingRequest st; cookies := cookies st;
     navigator_sendBeacon := navigator_sendBeacon st; calls := calls st;
     beacons := beacons st; waiting := waiting st; ready := value;
     beforeunload_listeners := beforeunload_listeners st;
     promises := promises st |}.

Definition set_beforeunload_listeners (value : nat) (st : State) : State :=
  {| options := options st; organization := organization st;
     this_visitId := this_visitId st;
     CUSTOM_ANALYTICS_VERSION := CUSTOM_ANALYTICS_VERSION st;
     pendingRequest := pendingRequest st; cookies := cookies st;
     navigator_sendBeacon := navigator_sendBeacon st; calls := calls st;
     beacons := beacons st; waiting := waiting st; ready := ready st;
     beforeunload_listeners := value; promises := promises st |}.

Definition set_promises (value : nat) (st : State) : State :=
  {| options := options st; organization := organization st;
     this_visitId := this_visitId st;
     CUSTOM_ANALYTICS_VERSION := CUSTOM_ANALYTICS_VERSION st;
     pendingRequest := pendingRequest st; cookies := cookies st;
     navigator_sendBeacon := navigator_sendBeacon st; calls := calls st;
     beacons := beacons st; waiting := waiting st; ready := ready st;
     beforeunload_listeners := beforeunload_listeners st;
     promises := value |}.

Definition DEFAULT_ANALYTICS_URI : string := "https://usageanalytics.coveo.com".
Definition DEFAULT_ANALYTICS_VERSION : string := "v15".
Definition VISITOR_COOKIE_TIME : Z := 10000 * 24 * 60 * 60 * 1000.

(** [new AnalyticsEndpoint(options)] in a fresh page. *)
Definition constructor (opts : IAnalyticsEndpointOptions) (sendBeacon : bool) : State :=
  {| options := opts; organization := options_organization opts;
     this_visitId := None; CUSTOM_ANALYTICS_VERSION := None;
     pendingRequest := None; cookies := ∅; navigator_sendBeacon := sendBeacon;
     calls := []; beacons := []; waiting := []; ready := [];
     beforeunload_listeners := 0; promises := 0 |}.

(** What a send returns: nothing, the promise of a call, or the promise
    chained with [finally] on the pending one. *)
Inductive Returned :=
| undefined
| promise_of_call (call : nat)
| promise_after (pending : nat).

Definition getCurrentVisitId (st : State) : option string * State :=
  (this_visitId st, st).

Definition analytics_version (st : State) : string :=
  if truthy (CUSTOM_ANALYTICS_VERSION st)
  then default "" (CUSTOM_ANALYTICS_VERSION st)
  else DEFAULT_ANALYTICS_VERSION.

(** [handleAnalyticsEventResponse]; [None] is the [TypeError] of reading
    [visitId] on the [undefined] that [_.first] gives for an empty array. *)
Definition handleAnalyticsEventResponse (response : Response) (st : State)
    : option State :=
  let found :=
    if truthy (response_visitId response)
    then Some (response_visitId response, response_visitorId response)
    else match searchEventResponses response with
         | Some responses =>
             match Underscore.first responses with
             | Some first => Some (visitId first, visitorId first)
             | None => None
             end
         | None => Some (None, None)
         end in
  match found with
  | None => None
  | Some (visitId, visitorId) =>
      let st1 := if truthy visitId then set_this_visitId visitId st else st in
      Some (if truthy visitorId
            then set_cookies
                   (Cookie.set "visitorId" (default "" visitorId)
                      VISITOR_COOKIE_TIME (cookies st1)) st1
            else st1)
  end.

(** [sendUsingEndpointCaller]: the call is handed to the endpoint caller and
    its promise, with the response handler and the [finally] that empties
    the slot chained on it, is put in [pendingRequest]. *)
Definition sendUsingEndpointCaller (url : string) (queryString : list string)
    (data : Data) (st : State) : Returned * State :=
  let call := promises st in
  let parameters :=
    {| errorsAsSuccess := false; method := "POST"; queryString := queryString;
       requestData := data; url := url; responseType := "text";
       requestDataType := "application/json" |} in
  (promise_of_call call,
   set_pendingRequest (Some call)
     (set_calls (calls st ++ [(call, parameters)])
        (set_promises (S call) st))).

Definition sendDataBeforeUnloadUsingBeacon (url : string)
    (queryString : list string) (data : Data) (st : State) : State :=
  set_beacons
    (beacons st ++
     [{| beacon_url := url;
         beacon_queryString :=
           queryString ++ ["access_token=" +:+ token (options st)];
         beacon_data := data |}]) st.

Definition sendDataBeforeUnloadUsingHack (url : string)
    (queryString : list string) (data : Data) (st : State) : State :=
  let st1 := snd (sendUsingEndpointCaller url queryString data st) in
  set_beforeunload_listeners (S (beforeunload_listeners st1)) st1.

Definition sendDataBeforeUnload (url : string) (queryString : list string)
    (data : Data) (st : State) : State :=
  if navigator_sendBeacon st
  then sendDataBeforeUnloadUsingBeacon url queryString data st
  else sendDataBeforeUnloadUsingHack url queryString data st.

(** [sendToService].  The recursive call sits in the callback given to
    [finally]; the callback is kept in [waiting] and runs as a step of its
    own once the pending promise has settled. *)
Definition sendToService (data : Data) (path paramName : string)
    (willCausePageUnload : bool) (st : State) : Returned * State :=
  let url :=
    mergePath (serviceUrl (options st))
      ("/rest/" +:+ analytics_version st +:+ "/analytics/" +:+ path) in
  let queryString :=
    (if truthy (organization st)
     then ["org=" +:+ default "" (organization st)] else [])
    ++ (if truthy (Cookie.get "visitorId" (cookies st))
        then ["visitor=" +:+
              encodeURIComponent (default "" (Cookie.get "visitorId" (cookies st)))]
        else []) in
  if willCausePageUnload
  then (undefined, sendDataBeforeUnload url queryString data st)
  else
    match pendingRequest st with
    | None => sendUsingEndpointCaller url queryString data st
    | Some pending =>
        (promise_after pending,
         set_waiting
           (waiting st ++
            [(pending, {| deferred_data := data; deferred_path := path;
                          deferred_paramName := paramName |})]) st)
    end.

Definition sendSearchEvents (searchEvents : list ISearchEvent) (st : State)
    : Returned * State :=
  if (0 <? length searchEvents)%nat
  then sendToService (SearchEvents searchEvents) "searches" "searchEvents" false st
  else (undefined, st).

Definition sendDocumentViewEvent (documentViewEvent : IClickEvent) (st : State)
    : Returned * State :=
  sendToService (ClickEvent documentViewEvent) "click" "clickEvent" true st.

Definition sendCustomEvent (customEvent : ICustomEvent) (st : State)
    : Returned * State :=
  sendToService (CustomEvent customEvent) "custom" "customEvent" false st.

(** *** The promises settle

    A call made by [sendUsingEndpointCaller] settles: a successful response
    goes through [handleAnalyticsEventResponse], the [finally] empties the
    slot, and the callbacks chained on this promise are ready to run. *)
Definition settle (call : nat) (outcome : settled Response IErrorResponse)
    (st : State) : State :=
  if bool_decide (call ∈ fst <$> calls st) then
    let st1 := set_calls (List.filter (fun c => negb (fst c =? call)%nat) (calls st)) st in
    let st2 :=
      match outcome with
      | Fulfilled response =>
          match handleAnalyticsEventResponse response st1 with
          | Some st' => st'
          | None => st1
          end
      | Rejected _ => st1
      end in
    let st3 := set_pendingRequest None st2 in
    set_ready
      (ready st3 ++ List.map snd (List.filter (fun w => (fst w =? call)%nat) (waiting st3)))
      (set_waiting (List.filter (fun w => negb (fst w =? call)%nat) (waiting st3)) st3)
  else st.

(** The first ready callback runs: it enters [sendToService] again. *)
Definition run_ready (st : State) : State :=
  match ready st with
  | [] => st
  | callback :: rest =>
      snd (sendToService (deferred_data callback) (deferred_path callback)
             (deferred_paramName callback) false (set_ready rest st))
  end.

(** What can happen to an endpoint, one thing at a time. *)
Inductive Event :=
| call_sendSearchEvents (searchEvents : list ISearchEvent)
| call_sendDocumentViewEvent (documentViewEvent : IClickEvent)
| call_sendCustomEvent (customEvent : ICustomEvent)
| call_settles (call : nat) (outcome : settled Response IErrorResponse)
| callback_runs.

Definition step (st : State) (event : Event) : State :=
  match event with
  | call_sendSearchEvents searchEvents => snd (sendSearchEvents searchEvents st)
  | call_sendDocumentViewEvent documentViewEvent =>
      snd (sendDocumentViewEvent documentViewEvent st)
  | call_sendCustomEvent customEvent => snd (sendCustomEvent customEvent st)
  | call_settles call outcome => settle call outcome st
  | callback_runs => run_ready st
  end.

Definition run (events : list Event) (st : State) : State :=
  fold_left step events st.

(** *** The GET requests *)

(** A value of a parameter object: a string or a number. *)
Inductive param :=
| param_string (s : string)
| param_number (n : Z).

(** [_.extend(destination, source)]: the properties of the source are copied
    onto the destination, over the ones it has. *)
Definition extend (destination source : gmap string param) : gmap string param :=
  source ∪ destination.

(** The argument of [endpointCaller.call] for a GET. *)
Record IGetCallParameters := {
  get_errorsAsSuccess : bool;
  get_method : string;
  get_queryString : list string;
  get_requestData : gmap string param;
  get_responseType : string;
  get_url : string
}.

Definition buildAnalyticsUrl (path : string) (st : State) : string :=
  serviceUrl (options st) +:+ "/rest/" +:+ analytics_version st +:+ path.

(** [getFromService]: the call it hands to the endpoint caller.  The slot
    [pendingRequest] plays no part in it. *)
Definition getFromService (url : string) (params : gmap string param) (st : State)
    : IGetCallParameters :=
  let paramsToSend :=
    if negb (String.eqb (token (options st)) "")
    then extend {[ "access_token" := param_string (token (options st)) ]} params
    else params in
  {| get_errorsAsSuccess := false;
     get_method := "GET";
     get_queryString :=
       if truthy (options_organization (options st))
       then ["org=" +:+ encodeURIComponent (default "" (options_organization (options st)))]
       else [];
     get_requestData := paramsToSend;
     get_responseType := "json";
     get_url := url |}.

Record ITopQueries := { pageSize : Z; queryText : string }.

Definition getTopQueries (params : ITopQueries) (st : State) : IGetCallParameters :=
  getFromService (buildAnalyticsUrl "/stats/topQueries" st)
    {[ "pageSize" := param_number (pageSize params);
       "queryText" := param_string (queryText params) ]} st.

Record IAPIAnalyticsVisitResponseRest := { id : string }.

(** What [getCurrentVisitIdPromise] does before it returns: it resolves its
    promise with the visit id it holds, or calls the service. *)
Inductive VisitIdPromise :=
| resolved_with (visit : string)
| waits_for (call : IGetCallParameters).

Definition getCurrentVisitIdPromise (st : State) : VisitIdPromise * State :=
  if truthy (fst (getCurrentVisitId st))
  then (resolved_with (default "" (fst (getCurrentVisitId st))), st)
  else (waits_for (getFromService (buildAnalyticsUrl "/analytics/visit" st) ∅ st), st).

(** The callbacks chained on the call of [getCurrentVisitIdPromise]: how the
    promise it returned settles, and what is left in the instance. *)
Definition getCurrentVisitIdPromise_settles
    (outcome : settled IAPIAnalyticsVisitResponseRest IErrorResponse) (st : State)
    : settled string IErrorResponse * State :=
  match outcome with
  | Fulfilled response =>
      (Fulfilled (id response), set_this_visitId (Some (id response)) st)
  | Rejected response => (Rejected response, st)
  end.

End AnalyticsEndpoint.

(** ** What holds of AnalyticsSuggestions *)

Module AnalyticsSuggestionsSpec.
Import AnalyticsSuggestions.

(** *** The body of [cleanCustomData], as one equation *)

Lemma cleanCustomData_unfold toClean rejectLength :
  cleanCustomData toClean rejectLength =
    let kept := pass toClean rejectLength in
    if 256 <=? Z.of_nat (String.length (join kept))
    then cleanCustomData kept (rejectLength - 10)
    else join kept.
Proof.
  rewrite cleanCustomData_equation_1. cbv zeta.
  destruct (inspect (256 <=? _)) as [b e].
  destruct b; simpl; rewrite e; reflexivity.
Qed.

(** *** The statements of one pass *)

(** Following the spec: an entry is kept only if it differs from its
    immediate predecessor in the list; the first entry has none. *)
Fixpoint collapse_spec_from (previous : option string) (entries : list string)
    : list string :=
  match entries with
  | [] => []
  | entry :: rest =>
      if decide (Some entry = previous)
      then collapse_spec_from (Some entry) rest
      else entry :: collapse_spec_from (Some entry) rest
  end.

Definition collapse_spec (entries : list string) : list string :=
  collapse_spec_from None entries.

Lemma filter_from_differs before rest :
  Underscore.filter_from differs_from_previous (before ++ rest) (length before) rest
  = collapse_spec_from (last before) rest.
Proof.
  revert before. induction rest as [|entry rest IH]; intros before; [reflexivity|].
  cbn [Underscore.filter_from collapse_spec_from].
  replace (before ++ entry :: rest) with ((before ++ [entry]) ++ rest)
    by (rewrite <- app_assoc; reflexivity).
  specialize (IH (before ++ [entry])).
  rewrite length_app in IH. simpl in IH.
  replace (length before + 1)%nat with (S (length before)) in IH by lia.
  rewrite last_snoc in IH. rewrite IH.
  assert (Hkeep : differs_from_previous entry (length before) ((before ++ [entry]) ++ rest)
                  = negb (bool_decide (Some entry = last before))).
  { unfold differs_from_previous.
    destruct before as [|b before'] using rev_ind.
    - reflexivity.
    - rewrite last_snoc, length_app. simpl.
      replace (length before' + 1 - 1)%nat with (length before') by lia.
      replace (length before' + 1 =? 0)%nat with false
        by (symmetry; apply Nat.eqb_neq; lia).
      rewrite <- !app_assoc. rewrite lookup_app_r by lia.
      replace (length before' - length before')%nat with 0%nat by lia.
      simpl.
      destruct (String.eqb_spec entry b) as [->|Hne].
      + rewrite bool_decide_eq_true_2; reflexivity.
      + rewrite bool_decide_eq_false_2; [reflexivity|congruence]. }
  rewrite Hkeep.
  destruct (decide (Some entry = last before)) as [Heq|Hne].
  - rewrite bool_decide_eq_true_2 by assumption. reflexivity.
  - rewrite bool_decide_eq_false_2 by assumption. reflexivity.
Qed.

Lemma collapse_consecutive_spec toClean :
  collapse_consecutive toClean = collapse_spec toClean.
Proof. exact (filter_from_differs [] toClean). Qed.

Lemma reduced_cons partial rest rejectLength :
  reducedToRejectLengthOrLess (partial :: rest) rejectLength =
    if total_length (partial :: rest) <=? rejectLength
    then partial :: reducedToRejectLengthOrLess rest rejectLength
    else reducedToRejectLengthOrLess rest rejectLength.
Proof.
  unfold reducedToRejectLengthOrLess.
  pose proof (reduceRight_memo rejectLength rest) as Hmemo.
  unfold Underscore.reduceRight in *. cbn [fold_right].
  destruct (fold_right _ _ rest) as [memo reduced]. simpl in Hmemo. subst memo.
  cbn [reduce_step snd total_length fold_right].
  replace (total_length rest + Z.of_nat (String.length partial))
    with (Z.of_nat (String.length partial) + total_length rest) by lia.
  change (fold_right (λ (s : string) (acc : Z), Z.of_nat (String.length s) + acc) 0 rest)
    with (total_length rest).
  destruct (_ <=? _); [|reflexivity].
  rewrite rev_app_distr. reflexivity.
Qed.

Lemma reduced_all toClean rejectLength :
  total_length toClean <= rejectLength ->
  reducedToRejectLengthOrLess toClean rejectLength = toClean.
Proof.
  induction toClean as [|partial rest IH]; intros Hle; [reflexivity|].
  rewrite reduced_cons.
  destruct (Z.leb_spec (total_length (partial :: rest)) rejectLength); [|lia].
  rewrite IH; [reflexivity|].
  pose proof (total_length_nonneg [partial]). simpl in *. lia.
Qed.

Lemma reduced_suffix toClean rejectLength :
  reducedToRejectLengthOrLess toClean rejectLength `suffix_of` toClean.
Proof.
  induction toClean as [|partial rest IH]; [reflexivity|].
  rewrite reduced_cons. destruct (Z.leb_spec (total_length (partial :: rest)) rejectLength).
  - rewrite reduced_all.
    + reflexivity.
    + pose proof (total_length_nonneg [partial]). simpl in *. lia.
  - apply suffix_cons_r, IH.
Qed.

Lemma reduced_total toClean rejectLength :
  0 <= rejectLength ->
  total_length (reducedToRejectLengthOrLess toClean rejectLength) <= rejectLength.
Proof.
  intros Hpos. induction toClean as [|partial rest IH]; [simpl; lia|].
  rewrite reduced_cons. destruct (Z.leb_spec (total_length (partial :: rest)) rejectLength).
  - rewrite reduced_all.
    + simpl in *. lia.
    + pose proof (total_length_nonneg [partial]). simpl in *. lia.
  - exact IH.
Qed.

Lemma reduced_longest toClean rejectLength (run : list string) :
  run `suffix_of` toClean -> total_length run <= rejectLength ->
  run `suffix_of` reducedToRejectLengthOrLess toClean rejectLength.
Proof.
  induction toClean as [|partial rest IH]; intros Hsuf Hle.
  - apply suffix_nil_inv in Hsuf. subst. reflexivity.
  - rewrite reduced_cons.
    destruct run as [|r run']; [apply suffix_nil|].
    apply suffix_cons_inv in Hsuf. destruct Hsuf as [Heq|Hsuf].
    + rewrite Heq in *.
      destruct (Z.leb_spec (total_length (partial :: rest)) rejectLength); [|lia].
      rewrite reduced_all; [reflexivity|].
      pose proof (total_length_nonneg [partial]). simpl in *. lia.
    + destruct (Z.leb_spec (total_length (partial :: rest)) rejectLength).
      * apply suffix_cons_r. auto.
      * auto.
Qed.

(** Induction along the retries of [cleanCustomData]. *)
Lemma cleanCustomData_retry_ind (P : list string -> Z -> Prop) :
  (forall toClean rejectLength,
      (256 <= Z.of_nat (String.length (join (pass toClean rejectLength))) ->
       P (pass toClean rejectLength) (rejectLength - 10)) ->
      P toClean rejectLength) ->
  forall toClean rejectLength, P toClean rejectLength.
Proof.
  intros Hstep toClean rejectLength.
  remember (Z.to_nat (rejectLength + 10)) as n eqn:Hn.
  revert toClean rejectLength Hn.
  induction n as [n IH] using lt_wf_ind. intros toClean rejectLength Hn.
  apply Hstep. intros Hlong.
  destruct (Z.ltb_spec rejectLength 0) as [Hneg|Hpos].
  - unfold pass in Hlong. rewrite reduced_negative in Hlong by assumption.
    simpl in Hlong. lia.
  - apply (IH (Z.to_nat (rejectLength - 10 + 10))); [lia|reflexivity].
Qed.

(** Whatever the input, the string that comes back is shorter than 256. *)
Lemma cleanCustomData_length toClean rejectLength :
  (String.length (cleanCustomData toClean rejectLength) < 256)%nat.
Proof.
  revert toClean rejectLength.
  apply cleanCustomData_retry_ind. intros toClean rejectLength IH.
  rewrite cleanCustomData_unfold. cbv zeta.
  destruct (Z.leb_spec 256 (Z.of_nat (String.length (join (pass toClean rejectLength))))).
  - auto.
  - lia.
Qed.












(** *** What the retries keep *)

Lemma length_append (s1 s2 : string) :
  String.length (s1 +:+ s2) = (String.length s1 + String.length s2)%nat.
Proof. induction s1 as [|c s1 IH]; simpl; [reflexivity|]. rewrite IH. reflexivity. Qed.

















(** Following the spec: every [;] is removed from the entry. *)
Definition remove_every_semicolon (entry : string) : string :=
  string_of_list_ascii
    (List.filter (fun c => negb (Ascii.eqb c ";")) (list_ascii_of_string entry)).

Lemma replace_semicolons_spec s : replace_semicolons s = remove_every_semicolon s.
Proof.
  unfold remove_every_semicolon. induction s as [|c s IH]; [reflexivity|].
  simpl. destruct (Ascii.eqb c ";"); simpl; rewrite IH; reflexivity.
Qed.

(** *** C4 *)

(** C4.  [cleanCustomData] works on the list it gets by first keeping the
    entries that differ from the entry just before them and then taking
    every [;] out of the entries kept; and [cleanCustomData(["a","a","b"])]
    is ["a;b"]. *)
Theorem cleanCustomData_collapses_then_strips :
  cleanCustomData ["a"; "a"; "b"] default_rejectLength = "a;b"
  /\ (forall toClean, collapse_consecutive toClean = collapse_spec toClean)
  /\ (forall toClean,
        strip_delimiter toClean = List.map remove_every_semicolon toClean)
  /\ (forall toClean rejectLength,
        cleanCustomData toClean rejectLength =
          let kept :=
            reducedToRejectLengthOrLess
              (List.map remove_every_semicolon (collapse_spec toClean))
              rejectLength in
          if 256 <=? Z.of_nat (String.length (join kept))
          then cleanCustomData kept (rejectLength - 10)
          else join kept).
Proof.
  assert (Hstrip : forall toClean,
             strip_delimiter toClean = List.map remove_every_semicolon toClean).
  { intros toClean. unfold strip_delimiter, Underscore.map.
    apply map_ext. exact replace_semicolons_spec. }
  split; [reflexivity|]. split; [exact collapse_consecutive_spec|].
  split; [exact Hstrip|].
  intros toClean rejectLength. rewrite cleanCustomData_unfold. unfold pass.
  rewrite collapse_consecutive_spec, Hstrip. reflexivity.
Qed.

(** *** C3 *)

(** Following the spec: [kept] is the longest trailing run of the list whose
    entries, joined with [;], are not longer than the budget. *)
Definition longest_run_by_joined_length (array : list string) (budget : Z)
    (kept : list string) : Prop :=
  kept `suffix_of` array
  /\ Z.of_nat (String.length (join kept)) <= budget
  /\ forall run, run `suffix_of` array ->
                 Z.of_nat (String.length (join run)) <= budget ->
                 run `suffix_of` kept.

Definition two_halves : list string := [repeat_char "x" 128; repeat_char "y" 128].

(** C3 fails on two entries of 128 characters: their lengths add up to the
    budget of 256, so both are retained, and joined they are 257 long. *)
Lemma joined_length_counterexample :
  reducedToRejectLengthOrLess two_halves 256 = two_halves
  /\ String.length (join two_halves) = 257%nat
  /\ ~ longest_run_by_joined_length two_halves 256
        (reducedToRejectLengthOrLess two_halves 256).
Proof.
  assert (Hkept : reducedToRejectLengthOrLess two_halves 256 = two_halves)
    by (vm_compute; reflexivity).
  assert (Hlen : String.length (join two_halves) = 257%nat)
    by (vm_compute; reflexivity).
  split; [exact Hkept|]. split; [exact Hlen|].
  rewrite Hkept. intros (_ & Hle & _). rewrite Hlen in Hle. lia.
Qed.

(** C3, amended.  Under a budget that is not negative, the scan from the
    end retains the longest trailing run of the list whose entries have
    lengths that add up to the budget at most; the separators that the join
    puts between them are not counted. *)
Theorem reduced_is_longest_run_by_total_length toClean rejectLength :
  0 <= rejectLength ->
  reducedToRejectLengthOrLess toClean rejectLength `suffix_of` toClean
  /\ total_length (reducedToRejectLengthOrLess toClean rejectLength) <= rejectLength
  /\ forall run, run `suffix_of` toClean -> total_length run <= rejectLength ->
                 run `suffix_of` reducedToRejectLengthOrLess toClean rejectLength.
Proof.
  intros Hbudget. split; [apply reduced_suffix|].
  split; [apply reduced_total, Hbudget|].
  intros run. apply reduced_longest.
Qed.

Lemma reduced_is_longest_run_by_total_length_witness :
  0 <= 256
  /\ reducedToRejectLengthOrLess two_halves 256 `suffix_of` two_halves
  /\ total_length (reducedToRejectLengthOrLess two_halves 256) <= 256
  /\ forall run, run `suffix_of` two_halves -> total_length run <= 256 ->
                 run `suffix_of` reducedToRejectLengthOrLess two_halves 256.
Proof.
  split; [lia|].
  apply (reduced_is_longest_run_by_total_length two_halves 256). lia.
Defined.

(** *** C2 *)


Definition long_history : list string :=
  ["old"; repeat_char "x" 200; repeat_char "y" 100].


(** Of the long history the last entry, 100 characters long, comes back;
    of the two halves, which the first scan retains both, the retry keeps
    the second. *)
Example cleanCustomData_long_history :
  cleanCustomData long_history default_rejectLength = repeat_char "y" 100.
Proof. vm_compute. reflexivity. Qed.

Example cleanCustomData_two_halves :
  cleanCustomData two_halves default_rejectLength = repeat_char "y" 128.
Proof. vm_compute. reflexivity. Qed.

(** *** The dictionary of the displayed suggestions *)

Lemma record_displayed_absent label i selectables (displayed : gmap string Displayed) :
  (forall j row, selectables !! j = Some row -> textContent row <> label) ->
  record_displayed i selectables displayed !! label = displayed !! label.
Proof.
  revert i displayed. induction selectables as [|selectable rest IH];
    intros i displayed Habsent; [reflexivity|].
  simpl. rewrite IH.
  - destruct (String.eqb _ "__proto__"); [reflexivity|].
    apply lookup_insert_ne. exact (Habsent 0%nat selectable eq_refl).
  - intros j row Hj. exact (Habsent (S j) row Hj).
Qed.

(** A row whose text is not shown again further down, and is not
    [__proto__], is filed under its text, with its position. *)
Lemma record_displayed_last i0 selectables (displayed : gmap string Displayed) i row :
  selectables !! i = Some row ->
  (forall j row', selectables !! j = Some row' -> (i < j)%nat ->
                  textContent row' <> textContent row) ->
  textContent row <> "__proto__" ->
  record_displayed i0 selectables displayed !! textContent row
  = Some {| element := row; pos := (i0 + i)%nat |}.
Proof.
  revert i0 displayed i.
  induction selectables as [|selectable rest IH]; intros i0 displayed i Hi Hlast Hown;
    [discriminate|].
  destruct i as [|i']; simpl in *.
  - injection Hi as ->. rewrite record_displayed_absent.
    + destruct (String.eqb_spec (textContent row) "__proto__"); [contradiction|].
      rewrite lookup_insert_eq, Nat.add_0_r. reflexivity.
    + intros j row' Hj. apply (Hlast (S j) row' Hj). lia.
  - rewrite (IH (S i0) _ i' Hi).
    + replace (S i0 + i')%nat with (i0 + S i')%nat by lia. reflexivity.
    + intros j row' Hj Hlt. apply (Hlast (S j) row' Hj). lia.
    + exact Hown.
Qed.

(** Every record of the dictionary comes from a row, filed under the text
    of the row with the position of the row. *)
Lemma record_displayed_inv i0 selectables (displayed : gmap string Displayed) label shown :
  record_displayed i0 selectables displayed !! label = Some shown ->
  displayed !! label = Some shown
  \/ exists j, selectables !! j = Some (element shown)
               /\ pos shown = (i0 + j)%nat
               /\ label = textContent (element shown).
Proof.
  revert i0 displayed.
  induction selectables as [|selectable rest IH]; intros i0 displayed Hlookup;
    [left; exact Hlookup|].
  simpl in Hlookup. apply IH in Hlookup.
  destruct Hlookup as [Hhere|(j & Hj & Hpos & Hlabel)].
  - destruct (String.eqb (textContent selectable) "__proto__"); [left; exact Hhere|].
    destruct (decide (textContent selectable = label)) as [Heq|Hne].
    + subst label. rewrite lookup_insert_eq in Hhere. injection Hhere as <-.
      right. exists 0%nat. simpl. split; [reflexivity|]. split; [lia|reflexivity].
    + rewrite lookup_insert_ne in Hhere by assumption. left. exact Hhere.
  - right. exists (S j). simpl. split; [exact Hj|]. split; [lia|exact Hlabel].
Qed.

Lemma record_prototype_inv i0 selectables prototype shown :
  record_prototype i0 selectables prototype = Some shown ->
  prototype = Some shown
  \/ exists j, selectables !! j = Some (element shown)
               /\ pos shown = (i0 + j)%nat
               /\ textContent (element shown) = "__proto__".
Proof.
  revert i0 prototype.
  induction selectables as [|selectable rest IH]; intros i0 prototype Hset;
    [left; exact Hset|].
  simpl in Hset. apply IH in Hset.
  destruct Hset as [Hhere|(j & Hj & Hpos & Hlabel)].
  - destruct (String.eqb_spec (textContent selectable) "__proto__") as [Heq|Hne];
      [|left; exact Hhere].
    injection Hhere as <-.
    right. exists 0%nat. simpl. split; [reflexivity|]. split; [lia|exact Heq].
  - right. exists (S j). simpl. split; [exact Hj|]. split; [lia|exact Hlabel].
Qed.

(** No row leaves an own key [__proto__]. *)
Lemma record_displayed_proto i selectables (displayed : gmap string Displayed) :
  record_displayed i selectables displayed !! "__proto__" = displayed !! "__proto__".
Proof.
  revert i displayed. induction selectables as [|selectable rest IH];
    intros i displayed; [reflexivity|].
  simpl. rewrite IH.
  destruct (String.eqb_spec (textContent selectable) "__proto__") as [Heq|Hne];
    [reflexivity|].
  apply lookup_insert_ne. exact Hne.
Qed.

Lemma record_prototype_is_Some i0 selectables prototype j row :
  selectables !! j = Some row -> textContent row = "__proto__" ->
  is_Some (record_prototype i0 selectables prototype).
Proof.
  assert (Hkept : forall rows i shown,
             is_Some (record_prototype i rows (Some shown))).
  { induction rows as [|selectable rest IH]; intros i shown; [eexists; reflexivity|].
    simpl. destruct (String.eqb _ _); apply IH. }
  revert i0 prototype j.
  induction selectables as [|selectable rest IH]; intros i0 prototype j Hj Hlabel;
    [discriminate|].
  simpl. destruct j as [|j'].
  - simpl in Hj. injection Hj as ->. rewrite Hlabel. simpl. apply Hkept.
  - eapply IH; eassumption.
Qed.

Lemma findWhere_Some {V} (object : gmap string V) (test : V -> bool) found :
  Underscore.findWhere object test = Some found ->
  exists key, object !! key = Some found /\ test found = true.
Proof.
  unfold Underscore.findWhere.
  destruct (list_find _ _) as [[i [key shown]]|] eqn:Hfind; [|discriminate].
  intros [= <-]. apply list_find_Some in Hfind. destruct Hfind as (Hi & Htest & _).
  exists key. split; [|exact Htest].
  apply elem_of_map_to_list. eapply list_elem_of_lookup_2. exact Hi.
Qed.

Lemma findWhere_is_Some {V} (object : gmap string V) (test : V -> bool) key shown :
  object !! key = Some shown -> test shown = true ->
  is_Some (Underscore.findWhere object test).
Proof.
  intros Hkey Htest. unfold Underscore.findWhere.
  destruct (list_find_elem_of (fun kv : string * V => test (snd kv) = true)
              (map_to_list object) (key, shown)) as [[i [key' shown']] Hfind].
  - apply elem_of_map_to_list. exact Hkey.
  - exact Htest.
  - rewrite Hfind. eexists. reflexivity.
Qed.

(** *** C6 *)

(** C6.  When the query for the top queries rejects, the promise that
    [handlePopulateOmnibox] pushed on the rows is resolved, not rejected,
    and the [element] of the value it is resolved with is [undefined]; the
    component is left as it was.  However the query settles, the pushed
    promise is not rejected. *)
Theorem rejected_top_queries_resolve_undefined
    (buildOmniboxElement : list Result -> IPopulateOmniboxEventArgs -> OmniboxElement)
    (E : Type) (this : AnalyticsSuggestions) (args : IPopulateOmniboxEventArgs)
    (reason : E) :
  snd (handlePopulateOmnibox this args)
  = [usageAnalytics_getTopQueries (numberOfSuggestions (options this))
       (completeQueryExpression_word args);
     rows_push_deferred]
  /\ (exists row,
        deferred_settles buildOmniboxElement this args (Rejected reason)
        = (this, Fulfilled row)
        /\ row_element row = None)
  /\ forall searchPromise : settled (list string) E,
       exists row,
         snd (deferred_settles buildOmniboxElement this args searchPromise)
         = Fulfilled row.
Proof.
  split; [reflexivity|]. split.
  - eexists. split; reflexivity.
  - intros [results|reason']; eexists; reflexivity.
Qed.

(** *** C7 *)

(** The render model holds the last suggestions, one [{value: result}] for
    each. *)
Definition results_follow_suggestions (this : AnalyticsSuggestions) : Prop :=
  resultsToBuildWith this
  = List.map (fun result => {| value := result |}) (lastSuggestions this).

Lemma selectSuggestion_state this suggestion :
  fst (selectSuggestion this suggestion) = this.
Proof.
  unfold selectSuggestion. destruct (currentlyDisplayedSuggestions this); [|reflexivity].
  destruct (isNaN suggestion).
  - cbv zeta. destruct (truthy_value _); reflexivity.
  - destruct (Underscore.findWhere _ _); reflexivity.
Qed.

Lemma transition_results buildOmniboxElement this this' :
  transition buildOmniboxElement this this' ->
  results_follow_suggestions this -> results_follow_suggestions this'.
Proof.
  intros Hstep Hinv. destruct Hstep as [this args [results|reason]|this|this suggestion|this chosen args].
  - reflexivity.
  - exact Hinv.
  - exact Hinv.
  - rewrite selectSuggestion_state. exact Hinv.
  - exact Hinv.
Qed.

Lemma reachable_results buildOmniboxElement opts this :
  reachable buildOmniboxElement opts this -> results_follow_suggestions this.
Proof.
  unfold reachable. intros Hreach.
  eapply (rtc_ind_r results_follow_suggestions); [| |exact Hreach].
  - reflexivity.
  - intros before after _ Hstep Hinv. eapply transition_results; eassumption.
Qed.

Lemma indexOf_from_first (array : list string) chosen start i :
  array !! i = Some chosen ->
  (forall j, (j < i)%nat -> array !! j <> Some chosen) ->
  Underscore.indexOf_from start array chosen = start + Z.of_nat i.
Proof.
  revert start i. induction array as [|x array IH]; intros start i Hi Hfirst;
    [discriminate|].
  simpl. destruct (decide (x = chosen)) as [->|Hne].
  - destruct i as [|i']; [lia|].
    exfalso. apply (Hfirst 0%nat); [lia|reflexivity].
  - destruct i as [|i']; [simpl in Hi; congruence|].
    rewrite (IH (start + 1) i' Hi); [lia|].
    intros j Hj. apply (Hfirst (S j)). lia.
Qed.

Lemma indexOf_from_absent (array : list string) chosen start :
  chosen ∉ array -> Underscore.indexOf_from start array chosen = -1.
Proof.
  revert start. induction array as [|x array IH]; intros start Habsent; [reflexivity|].
  simpl. destruct (decide (x = chosen)) as [->|Hne].
  - exfalso. apply Habsent. left.
  - apply IH. intros Hin. apply Habsent. right. exact Hin.
Qed.

Lemma pluck_results (results : list string) :
  Underscore.pluck (List.map (fun result => {| value := result |}) results) value
  = results.
Proof.
  unfold Underscore.pluck. induction results as [|r results IH]; [reflexivity|].
  simpl. rewrite IH. reflexivity.
Qed.

(** C7.  The event that [onRowSelection] logs carries, as
    [suggestionRanking], the index from zero of the first place of the
    chosen value in the last suggestions, and [-1] when the chosen value is
    not among them. *)
Theorem suggestionRanking_is_index buildOmniboxElement opts this chosen args :
  reachable buildOmniboxElement opts this ->
  exists meta,
    onRowSelection this chosen args
    = (this, [args_clear; args_closeOmnibox; queryStateModel_set_q chosen;
              usageAnalytics_logSearchEvent meta; queryController_executeQuery])
    /\ (forall i, lastSuggestions this !! i = Some chosen ->
                  (forall j, (j < i)%nat -> lastSuggestions this !! j <> Some chosen) ->
                  suggestionRanking meta = Z.of_nat i)
    /\ (chosen ∉ lastSuggestions this -> suggestionRanking meta = -1).
Proof.
  intros Hreach. apply reachable_results in Hreach.
  eexists. split; [reflexivity|]. cbn [suggestionRanking].
  rewrite Hreach, pluck_results. unfold Underscore.indexOf. split.
  - intros i Hi Hfirst. rewrite (indexOf_from_first _ _ 0 i Hi Hfirst). lia.
  - apply indexOf_from_absent.
Qed.

Definition two_suggestions : AnalyticsSuggestions :=
  fst (deferred_settles (fun _ _ => {| root := 0; findAll_selectable := [] |})
         (constructor default_options)
         {| completeQueryExpression_word := "fo" |}
         (Fulfilled (E := unit) ["foo"; "bar"])).

Lemma suggestionRanking_is_index_witness :
  reachable (fun _ _ => {| root := 0; findAll_selectable := [] |})
    default_options two_suggestions
  /\ exists meta,
      onRowSelection two_suggestions "bar" {| completeQueryExpression_word := "fo" |}
      = (two_suggestions,
         [args_clear; args_closeOmnibox; queryStateModel_set_q "bar";
          usageAnalytics_logSearchEvent meta; queryController_executeQuery])
      /\ (forall i, lastSuggestions two_suggestions !! i = Some "bar" ->
                    (forall j, (j < i)%nat ->
                               lastSuggestions two_suggestions !! j <> Some "bar") ->
                    suggestionRanking meta = Z.of_nat i)
      /\ ("bar" ∉ lastSuggestions two_suggestions -> suggestionRanking meta = -1).
Proof.
  assert (H : reachable (fun _ _ => {| root := 0; findAll_selectable := [] |})
                default_options two_suggestions).
  { apply rtc_once. apply populate_settles. }
  split; [exact H|].
  exact (suggestionRanking_is_index _ default_options two_suggestions "bar"
           {| completeQueryExpression_word := "fo" |} H).
Defined.

(** *** C8 *)

(** The component while the rows [selectables] are displayed. *)
Definition displaying (selectables : list HTMLElement) (this : AnalyticsSuggestions)
    : Prop :=
  currentlyDisplayedSuggestions this = Some (record_displayed 0 selectables ∅).

Lemma searchPromise_then_displaying buildOmniboxElement this args results :
  displaying
    (findAll_selectable
       (buildOmniboxElement
          (Underscore.map results (fun result => {| value := result |})) args))
    (fst (searchPromise_then buildOmniboxElement this args results)).
Proof. reflexivity. Qed.

Definition foo_twice : list HTMLElement :=
  [{| node := 10; textContent := "foo" |}; {| node := 11; textContent := "foo" |}].

Definition showing (selectables : list HTMLElement) : AnalyticsSuggestions :=
  {| options := default_options; partialQueries := []; lastSuggestions := [];
     resultsToBuildWith := [];
     currentlyDisplayedSuggestions := Some (record_displayed 0 selectables ∅);
     currentlyDisplayedSuggestions_prototype := record_prototype 0 selectables None |}.

(** C8 fails where two rows show the same text: the dictionary keeps the
    last of them only, so the position of the first selects nothing, and the
    text selects the second row. *)
Lemma repeated_label_counterexample :
  displaying foo_twice (showing foo_twice)
  /\ foo_twice !! 0%nat = Some {| node := 10; textContent := "foo" |}
  /\ selectSuggestion (showing foo_twice) (Num (Int 0)) = (showing foo_twice, [])
  /\ selectSuggestion (showing foo_twice) (Str "foo")
     = (showing foo_twice, [trigger_click {| node := 11; textContent := "foo" |}])
  /\ selectSuggestion (showing foo_twice) (Num (Int 0))
     <> selectSuggestion (showing foo_twice) (Str "foo").
Proof.
  split; [reflexivity|]. split; [reflexivity|].
  assert (H0 : selectSuggestion (showing foo_twice) (Num (Int 0))
               = (showing foo_twice, [])) by (vm_compute; reflexivity).
  assert (H1 : selectSuggestion (showing foo_twice) (Str "foo")
               = (showing foo_twice,
                  [trigger_click {| node := 11; textContent := "foo" |}]))
    by (vm_compute; reflexivity).
  split; [exact H0|]. split; [exact H1|].
  rewrite H0, H1. intros [= ].
Qed.

(** A text that reads as a number is taken for a position, and matches
    none: [isNaN] is what tells a label from a position. *)
Example numeric_label_selects_nothing :
  let year := {| node := 20; textContent := "2016" |} in
  selectSuggestion (showing [year]) (Num (Int 0)) = (showing [year], [trigger_click year])
  /\ selectSuggestion (showing [year]) (Str "2016") = (showing [year], []).
Proof. vm_compute. split; reflexivity. Qed.

(** A row that reads [__proto__] is no own property of the object: its
    position selects nothing, and its text selects it, through the prototype. *)
Example proto_label_is_not_found_by_position :
  let proto := {| node := 30; textContent := "__proto__" |} in
  selectSuggestion (showing [proto]) (Num (Int 0)) = (showing [proto], [])
  /\ selectSuggestion (showing [proto]) (Str "__proto__")
     = (showing [proto], [trigger_click proto]).
Proof. vm_compute. split; reflexivity. Qed.

(** C8, amended.  For a row at position [i] whose text is not shown again
    further down, does not read as a number and is not [__proto__],
    [selectSuggestion(i)] and [selectSuggestion(text)] trigger the same
    click, on that row. *)
Theorem selectSuggestion_position_and_label selectables this i row :
  displaying selectables this ->
  selectables !! i = Some row ->
  (forall j row', selectables !! j = Some row' -> (i < j)%nat ->
                  textContent row' <> textContent row) ->
  isNaN (Str (textContent row)) = true ->
  textContent row <> "__proto__" ->
  selectSuggestion this (Num (Int (Z.of_nat i))) = (this, [trigger_click row])
  /\ selectSuggestion this (Str (textContent row)) = (this, [trigger_click row]).
Proof.
  intros Hshown Hi Hlast Hlabel Hown.
  pose proof (record_displayed_last 0 selectables ∅ i row Hi Hlast Hown) as Hfiled.
  unfold displaying in Hshown. unfold selectSuggestion. rewrite Hshown. split.
  - cbn [isNaN].
    destruct (findWhere_is_Some (record_displayed 0 selectables ∅)
                (fun shown => strict_equals (pos shown) (Num (Int (Z.of_nat i))))
                _ _ Hfiled) as [found Hfound].
    { simpl. apply Z.eqb_refl. }
    rewrite Hfound. apply findWhere_Some in Hfound.
    destruct Hfound as (key & Hkey & Htest).
    apply record_displayed_inv in Hkey.
    destruct Hkey as [Hempty|(j & Hj & Hpos & _)]; [rewrite lookup_empty in Hempty; discriminate|].
    simpl in Htest. apply Z.eqb_eq in Htest.
    assert (j = i) by lia. subst j.
    rewrite Hi in Hj. injection Hj as <-. reflexivity.
  - rewrite Hlabel. cbn [ToPropertyKey]. unfold get_property. rewrite Hfiled.
    reflexivity.
Qed.

Definition foo_bar : list HTMLElement :=
  [{| node := 10; textContent := "foo" |}; {| node := 11; textContent := "bar" |}].

Lemma selectSuggestion_position_and_label_witness :
  displaying foo_bar (showing foo_bar)
  /\ foo_bar !! 1%nat = Some {| node := 11; textContent := "bar" |}
  /\ isNaN (Str "bar") = true
  /\ "bar" <> "__proto__"
  /\ selectSuggestion (showing foo_bar) (Num (Int 1))
     = (showing foo_bar, [trigger_click {| node := 11; textContent := "bar" |}])
  /\ selectSuggestion (showing foo_bar) (Str "bar")
     = (showing foo_bar, [trigger_click {| node := 11; textContent := "bar" |}]).
Proof.
  split; [reflexivity|]. split; [reflexivity|]. split; [reflexivity|].
  split; [discriminate|].
  apply (selectSuggestion_position_and_label foo_bar (showing foo_bar) 1
           {| node := 11; textContent := "bar" |}).
  - reflexivity.
  - reflexivity.
  - intros [|[|[|j]]] row' Hj Hlt; simpl in Hj; try lia; discriminate.
  - reflexivity.
  - discriminate.
Defined.

(** *** C10 *)

(** The identifier matches no displayed suggestion: it is the key of no
    record and the position of none, the record that a row reading
    [__proto__] left as the prototype included. *)
Definition matches_none (displayed : gmap string Displayed)
    (prototype : option Displayed) (suggestion : Suggestion) : Prop :=
  (forall label shown, displayed !! label = Some shown ->
     label <> ToPropertyKey suggestion /\ strict_equals (pos shown) suggestion = false)
  /\ (forall shown, prototype = Some shown ->
        "__proto__" <> ToPropertyKey suggestion
        /\ strict_equals (pos shown) suggestion = false).

(** The identifier, as a key, is a name that the object has without a row
    having given it: a name of [Object.prototype], [__proto__] itself, or a
    field of the record that stands as the prototype. *)
Definition inherited_name (prototype : option Displayed) (key : string) : bool :=
  bool_decide (key ∈ Object_prototype_names)
  || String.eqb key "__proto__"
  || match prototype with
     | Some shown => String.eqb key "element" || String.eqb key "pos"
     | None => false
     end.

(** C10.  When nothing has been rendered yet, or when the identifier matches
    no displayed suggestion by label or by position, [selectSuggestion]
    leaves the component as it was, triggers no click and logs no event.
    It has no effect at all, but for an identifier that reads as no number
    and is a name the object inherits: there the click is attempted on
    [undefined] and ends in a [TypeError], before anything is dispatched. *)
Theorem selectSuggestion_miss this suggestion :
  currentlyDisplayedSuggestions this = None
  \/ (exists displayed, currentlyDisplayedSuggestions this = Some displayed
                        /\ matches_none displayed
                             (currentlyDisplayedSuggestions_prototype this) suggestion) ->
  fst (selectSuggestion this suggestion) = this
  /\ (forall clicked, trigger_click clicked ∉ snd (selectSuggestion this suggestion))
  /\ (forall meta, usageAnalytics_logSearchEvent meta ∉ snd (selectSuggestion this suggestion))
  /\ (snd (selectSuggestion this suggestion) = []
      \/ snd (selectSuggestion this suggestion) = [throw_TypeError])
  /\ (currentlyDisplayedSuggestions this = None
      \/ isNaN suggestion = false
      \/ inherited_name (currentlyDisplayedSuggestions_prototype this)
           (ToPropertyKey suggestion) = false ->
      snd (selectSuggestion this suggestion) = []).
Proof.
  intros Hmiss.
  assert (Hnothing : forall effects : list Effect,
             effects = [] \/ effects = [throw_TypeError] ->
             (forall clicked, trigger_click clicked ∉ effects)
             /\ (forall meta, usageAnalytics_logSearchEvent meta ∉ effects)).
  { intros effects [-> | ->]; split; intros x Hin.
    - apply elem_of_nil in Hin. exact Hin.
    - apply elem_of_nil in Hin. exact Hin.
    - apply list_elem_of_singleton in Hin. discriminate.
    - apply list_elem_of_singleton in Hin. discriminate. }
  assert (Heffects : (snd (selectSuggestion this suggestion) = []
                      \/ snd (selectSuggestion this suggestion) = [throw_TypeError])
                     /\ (currentlyDisplayedSuggestions this = None
                         \/ isNaN suggestion = false
                         \/ inherited_name (currentlyDisplayedSuggestions_prototype this)
                              (ToPropertyKey suggestion) = false ->
                         snd (selectSuggestion this suggestion) = [])).
  { unfold selectSuggestion.
    destruct Hmiss as [Hunset|(displayed & Hset & Hown & Hproto)].
    { rewrite Hunset. split; [left; reflexivity|reflexivity]. }
    rewrite Hset. destruct (isNaN suggestion) eqn:Hnan.
    - cbv zeta. unfold get_property, inherited_name, inherited_from_Object.
      destruct (displayed !! ToPropertyKey suggestion) as [found|] eqn:Hkey.
      { destruct (Hown _ _ Hkey) as [Hne _]. contradiction. }
      destruct (String.eqb_spec (ToPropertyKey suggestion) "__proto__") as [Heq|Hne].
      + destruct (currentlyDisplayedSuggestions_prototype this) as [shown|] eqn:Hp.
        * destruct (Hproto shown eq_refl) as [Hne _]. congruence.
        * simpl. split; [right; reflexivity|].
          intros [H|[H|H]]; [discriminate|discriminate|].
          rewrite orb_true_r in H. discriminate.
      + destruct (currentlyDisplayedSuggestions_prototype this) as [shown|] eqn:Hp.
        * destruct (String.eqb (ToPropertyKey suggestion) "element") eqn:He.
          { simpl. split; [right; reflexivity|].
            intros [H|[H|H]]; [discriminate|discriminate|].
            rewrite orb_true_r in H. discriminate. }
          destruct (String.eqb (ToPropertyKey suggestion) "pos") eqn:Hq.
          { simpl. destruct (pos shown =? 0)%nat; simpl.
            - split; [left; reflexivity|reflexivity].
            - split; [right; reflexivity|].
              intros [H|[H|H]]; [discriminate|discriminate|].
              rewrite orb_true_r in H. discriminate. }
          destruct (bool_decide (ToPropertyKey suggestion ∈ Object_prototype_names)); simpl.
          { split; [right; reflexivity|]. intros [H|[H|H]]; discriminate. }
          split; [left; reflexivity|reflexivity].
        * destruct (bool_decide (ToPropertyKey suggestion ∈ Object_prototype_names)); simpl.
          { split; [right; reflexivity|]. intros [H|[H|H]]; discriminate. }
          split; [left; reflexivity|reflexivity].
    - destruct (Underscore.findWhere _ _) as [found|] eqn:Hfind;
        [|split; [left; reflexivity|reflexivity]].
      apply findWhere_Some in Hfind. destruct Hfind as (key & Hkey & Htest).
      destruct (Hown _ _ Hkey) as [_ Hpos]. congruence. }
  destruct Heffects as [Hshape Hquiet].
  split; [apply selectSuggestion_state|].
  destruct (Hnothing _ Hshape) as [Hclick Hlog].
  split; [exact Hclick|]. split; [exact Hlog|]. split; [exact Hshape|exact Hquiet].
Qed.

Lemma selectSuggestion_miss_witness :
  matches_none (record_displayed 0 foo_bar ∅) (record_prototype 0 foo_bar None) (Str "baz")
  /\ selectSuggestion (showing foo_bar) (Str "baz") = (showing foo_bar, [])
  /\ fst (selectSuggestion (showing foo_bar) (Str "constructor")) = showing foo_bar
  /\ (forall clicked,
        trigger_click clicked ∉ snd (selectSuggestion (showing foo_bar) (Str "constructor")))
  /\ snd (selectSuggestion (showing foo_bar) (Str "constructor")) = [throw_TypeError].
Proof.
  assert (Hnone : forall name, name <> "foo" -> name <> "bar" ->
                    matches_none (record_displayed 0 foo_bar ∅)
                      (record_prototype 0 foo_bar None) (Str name)).
  { intros name Hfoo Hbar. split.
    - intros label shown Hlookup. split; [|reflexivity].
      cbn [ToPropertyKey]. intros ->.
      change (record_displayed 0 foo_bar ∅)
        with (<["bar" := {| element := {| node := 11; textContent := "bar" |}; pos := 1 |}]>
                (<["foo" := {| element := {| node := 10; textContent := "foo" |}; pos := 0 |}]>
                   (∅ : gmap string Displayed))) in Hlookup.
      rewrite lookup_insert_ne in Hlookup by congruence.
      rewrite lookup_insert_ne in Hlookup by congruence.
      rewrite lookup_empty in Hlookup. discriminate.
    - intros shown Hshown. discriminate. }
  assert (H : matches_none (record_displayed 0 foo_bar ∅)
                (record_prototype 0 foo_bar None) (Str "baz"))
    by (apply Hnone; discriminate).
  split; [exact H|].
  pose proof (selectSuggestion_miss (showing foo_bar) (Str "baz")
                (or_intror (ex_intro _ (record_displayed 0 foo_bar ∅) (conj eq_refl H))))
    as (Hstate & _ & _ & _ & Hquiet).
  split.
  { rewrite (surjective_pairing (selectSuggestion (showing foo_bar) (Str "baz"))).
    rewrite Hstate, Hquiet; [reflexivity|]. right. right. reflexivity. }
  pose proof (selectSuggestion_miss (showing foo_bar) (Str "constructor")
                (or_intror (ex_intro _ (record_displayed 0 foo_bar ∅)
                              (conj eq_refl (Hnone "constructor" ltac:(discriminate)
                                               ltac:(discriminate))))))
    as (Hstate' & Hclick' & _ & _ & _).
  split; [exact Hstate'|]. split; [exact Hclick'|]. reflexivity.
Defined.

End AnalyticsSuggestionsSpec.

(** ** What holds of AnalyticsEndpoint *)

Module AnalyticsEndpointSpec.
Import AnalyticsEndpoint.

(** *** The pending request slot *)

(** The slot and the calls agree: with an empty slot nothing is in flight
    and nothing waits; with a promise in the slot, its call is the one call
    in flight and every waiting callback waits on it. *)
Definition serialized (st : State) : Prop :=
  match pendingRequest st with
  | None => calls st = [] /\ waiting st = []
  | Some pending =>
      (exists parameters, calls st = [(pending, parameters)])
      /\ Forall (fun w => fst w = pending) (waiting st)
  end.

Lemma serialized_constructor opts sendBeacon :
  serialized (constructor opts sendBeacon).
Proof. split; reflexivity. Qed.

Lemma sendToService_serialized data path paramName st :
  serialized st ->
  serialized (snd (sendToService data path paramName false st)).
Proof.
  unfold serialized, sendToService. intros H.
  destruct (pendingRequest st) as [pending|] eqn:Hslot; simpl.
  - rewrite Hslot. destruct H as [Hcalls Hwait]. split; [exact Hcalls|].
    apply Forall_app. split; [exact Hwait|]. constructor; [reflexivity|constructor].
  - destruct H as [Hcalls Hwait]. rewrite Hcalls, Hwait.
    split; [eexists; reflexivity|constructor].
Qed.

Lemma sendToService_beacon data path paramName st :
  navigator_sendBeacon st = true ->
  serialized st ->
  serialized (snd (sendToService data path paramName true st)).
Proof.
  unfold serialized, sendToService, sendDataBeforeUnload. intros Hb H.
  rewrite Hb. simpl. exact H.
Qed.

Lemma handleAnalyticsEventResponse_frame response st st' :
  handleAnalyticsEventResponse response st = Some st' ->
  pendingRequest st' = pendingRequest st /\ calls st' = calls st
  /\ waiting st' = waiting st /\ ready st' = ready st
  /\ navigator_sendBeacon st' = navigator_sendBeacon st
  /\ beacons st' = beacons st /\ promises st' = promises st.
Proof.
  unfold handleAnalyticsEventResponse.
  destruct (truthy (response_visitId response)).
  - intros [= <-]. destruct (truthy _), (truthy _); simpl; auto 10.
  - destruct (searchEventResponses response) as [responses|].
    + destruct (Underscore.first responses) as [first|]; [|discriminate].
      intros [= <-]. destruct (truthy _), (truthy _); simpl; auto 10.
    + intros [= <-]. simpl. auto 10.
Qed.

Lemma filter_other_single (call : nat) (parameters : IEndpointCallParameters) :
  List.filter (fun c : nat * IEndpointCallParameters => negb (fst c =? call)%nat)
    [(call, parameters)] = [].
Proof. simpl. rewrite Nat.eqb_refl. reflexivity. Qed.

Lemma settle_serialized call outcome st :
  serialized st -> serialized (settle call outcome st).
Proof.
  intros H. unfold settle. case_bool_decide as Hin; [|exact H].
  unfold serialized in H.
  destruct (pendingRequest st) as [pending|] eqn:Hslot.
  - destruct H as [[parameters Hcalls] Hwait].
    rewrite Hcalls in Hin. simpl in Hin.
    apply list_elem_of_singleton in Hin. subst call.
    assert (Hkeep : List.filter (fun w : nat * Deferred => negb (fst w =? pending)%nat)
                      (waiting st) = []).
    { clear -Hwait. induction Hwait as [|w ws Hw _ IH]; [reflexivity|].
      simpl. rewrite Hw, Nat.eqb_refl. exact IH. }
    set (st1 := set_calls _ st).
    assert (Hst1 : calls st1 = [] /\ waiting st1 = waiting st).
    { subst st1. simpl. rewrite Hcalls, filter_other_single. auto. }
    destruct Hst1 as [Hc1 Hw1].
    assert (Hst2 : forall st2,
               calls st2 = [] -> waiting st2 = waiting st ->
               serialized
                 (set_ready
                    (ready (set_pendingRequest None st2) ++
                     List.map snd (List.filter (fun w => (fst w =? pending)%nat)
                                     (waiting (set_pendingRequest None st2))))
                    (set_waiting
                       (List.filter (fun w => negb (fst w =? pending)%nat)
                          (waiting (set_pendingRequest None st2)))
                       (set_pendingRequest None st2)))).
    { intros st2 Hc2 Hw2. unfold serialized. simpl. rewrite Hw2, Hkeep. auto. }
    destruct outcome as [response|reason]; [|apply Hst2; assumption].
    destruct (handleAnalyticsEventResponse response st1) as [st'|] eqn:Hh;
      [|apply Hst2; assumption].
    apply handleAnalyticsEventResponse_frame in Hh.
    destruct Hh as (_ & Hc & Hw & _). apply Hst2; congruence.
  - destruct H as [Hcalls _]. rewrite Hcalls in Hin. simpl in Hin.
    apply elem_of_nil in Hin. contradiction.
Qed.

Lemma set_ready_serialized value st :
  serialized st -> serialized (set_ready value st).
Proof. intros H. exact H. Qed.

Lemma navigator_sendToService data path paramName unload st :
  navigator_sendBeacon (snd (sendToService data path paramName unload st))
  = navigator_sendBeacon st.
Proof.
  unfold sendToService, sendDataBeforeUnload.
  destruct unload; simpl.
  - destruct (navigator_sendBeacon st) eqn:Hb; simpl; assumption.
  - destruct (pendingRequest st); reflexivity.
Qed.

Lemma navigator_step st event :
  navigator_sendBeacon (step st event) = navigator_sendBeacon st.
Proof.
  destruct event as [searchEvents| | |call outcome|]; cbn [step].
  - unfold sendSearchEvents. destruct (_ <? _)%nat; [|reflexivity].
    apply navigator_sendToService.
  - apply navigator_sendToService.
  - apply navigator_sendToService.
  - unfold settle. case_bool_decide; [|reflexivity]. simpl.
    destruct outcome as [response|]; [|reflexivity].
    destruct (handleAnalyticsEventResponse _ _) as [st'|] eqn:Hh; [|reflexivity].
    apply handleAnalyticsEventResponse_frame in Hh. tauto.
  - unfold run_ready. destruct (ready st); [reflexivity|].
    rewrite navigator_sendToService. reflexivity.
Qed.

Lemma step_serialized st event :
  navigator_sendBeacon st = true -> serialized st -> serialized (step st event).
Proof.
  intros Hb H. destruct event as [searchEvents| | |call outcome|]; cbn [step].
  - unfold sendSearchEvents. destruct (_ <? _)%nat; [|exact H].
    apply sendToService_serialized, H.
  - apply sendToService_beacon; assumption.
  - apply sendToService_serialized, H.
  - apply settle_serialized, H.
  - unfold run_ready. destruct (ready st) as [|callback rest]; [exact H|].
    apply sendToService_serialized, set_ready_serialized, H.
Qed.

(** Where unload sends leave as beacons, the slot and the calls agree after
    any sequence of sends, settlements and callbacks, so that at most one
    call is in flight. *)
Lemma run_serialized events st :
  navigator_sendBeacon st = true -> serialized st -> serialized (run events st).
Proof.
  revert st. induction events as [|event events IH]; intros st Hb H; [exact H|].
  simpl. apply IH.
  - rewrite navigator_step. exact Hb.
  - apply step_serialized; assumption.
Qed.

Lemma serialized_one_call st : serialized st -> (length (calls st) <= 1)%nat.
Proof.
  unfold serialized. destruct (pendingRequest st).
  - intros [[parameters ->] _]. simpl. lia.
  - intros [-> _]. simpl. lia.
Qed.

Lemma one_call_in_flight opts events :
  (length (calls (run events (constructor opts true))) <= 1)%nat.
Proof.
  apply serialized_one_call, run_serialized;
    [reflexivity|apply serialized_constructor].
Qed.

(** While a promise is in the slot, a send makes no call: its callback
    waits on that promise. *)
Lemma send_waits data path paramName pending st :
  pendingRequest st = Some pending ->
  sendToService data path paramName false st =
    (promise_after pending,
     set_waiting
       (waiting st ++
        [(pending, {| deferred_data := data; deferred_path := path;
                      deferred_paramName := paramName |})]) st).
Proof. intros H. unfold sendToService. rewrite H. reflexivity. Qed.

(** With an empty slot, a send makes its call at once. *)
Lemma send_posts data path paramName st :
  pendingRequest st = None ->
  exists parameters st',
    sendToService data path paramName false st = (promise_of_call (promises st), st')
    /\ calls st' = calls st ++ [(promises st, parameters)]
    /\ pendingRequest st' = Some (promises st)
    /\ method parameters = "POST"
    /\ url parameters =
         mergePath (serviceUrl (options st))
           ("/rest/" +:+ analytics_version st +:+ "/analytics/" +:+ path)
    /\ requestData parameters = data.
Proof.
  intros H. unfold sendToService. rewrite H. unfold sendUsingEndpointCaller.
  eexists _, _. split; [reflexivity|]. simpl. auto 10.
Qed.

(** A send made while a call is in flight makes no call of its own; when
    that call has settled nothing is in flight, the slot is empty, and the
    callback of the send is among those that are ready to enter
    [sendToService] again. *)
Lemma deferred_send_runs_after_settlement data path paramName pending outcome st :
  serialized st ->
  pendingRequest st = Some pending ->
  let st1 := snd (sendToService data path paramName false st) in
  let st2 := settle pending outcome st1 in
  calls st1 = calls st
  /\ calls st2 = [] /\ pendingRequest st2 = None /\ waiting st2 = []
  /\ ready st2 =
       ready st ++ List.map snd (waiting st)
       ++ [{| deferred_data := data; deferred_path := path;
              deferred_paramName := paramName |}].
Proof.
  intros Hser Hslot st1 st2.
  pose proof (sendToService_serialized data path paramName st Hser) as Hser1.
  fold st1 in Hser1.
  assert (Hst1 : calls st1 = calls st /\ pendingRequest st1 = Some pending
                 /\ ready st1 = ready st
                 /\ waiting st1 =
                      waiting st ++
                      [(pending, {| deferred_data := data; deferred_path := path;
                                    deferred_paramName := paramName |})]).
  { subst st1. rewrite (send_waits _ _ _ pending) by assumption. simpl. auto. }
  destruct Hst1 as (Hcalls1 & Hslot1 & Hready1 & Hwait1).
  split; [exact Hcalls1|].
  unfold serialized in Hser1. rewrite Hslot1 in Hser1.
  destruct Hser1 as [[parameters Hone] Hall].
  assert (Hmine : List.filter (fun w : nat * Deferred => (fst w =? pending)%nat)
                    (waiting st1) = waiting st1).
  { clear -Hall. induction Hall as [|w ws Hw _ IH]; [reflexivity|].
    simpl. rewrite Hw, Nat.eqb_refl, IH. reflexivity. }
  assert (Hothers : List.filter (fun w : nat * Deferred => negb (fst w =? pending)%nat)
                      (waiting st1) = []).
  { clear -Hall. induction Hall as [|w ws Hw _ IH]; [reflexivity|].
    simpl. rewrite Hw, Nat.eqb_refl. exact IH. }
  assert (Hdone : forall st', calls st' = [] -> waiting st' = waiting st1 ->
                              ready st' = ready st1 ->
            let final :=
              set_ready
                (ready (set_pendingRequest None st') ++
                 List.map snd (List.filter (fun w => (fst w =? pending)%nat)
                                 (waiting (set_pendingRequest None st'))))
                (set_waiting
                   (List.filter (fun w => negb (fst w =? pending)%nat)
                      (waiting (set_pendingRequest None st')))
                   (set_pendingRequest None st')) in
            calls final = [] /\ pendingRequest final = None /\ waiting final = []
            /\ ready final =
                 ready st ++ List.map snd (waiting st)
                 ++ [{| deferred_data := data; deferred_path := path;
                        deferred_paramName := paramName |}]).
  { intros st' Hc Hw Hr. simpl. rewrite Hc, Hw, Hr, Hmine, Hothers, Hready1, Hwait1.
    rewrite map_app. simpl. auto. }
  subst st2. unfold settle.
  rewrite bool_decide_eq_true_2
    by (rewrite Hone; simpl; apply list_elem_of_singleton; reflexivity).
  set (st' := set_calls _ st1).
  assert (Hst' : calls st' = [] /\ waiting st' = waiting st1 /\ ready st' = ready st1).
  { subst st'. simpl. rewrite Hone, filter_other_single. auto. }
  destruct Hst' as (Hc & Hw & Hr).
  destruct outcome as [response|reason]; [|apply Hdone; assumption].
  destruct (handleAnalyticsEventResponse response st') as [st''|] eqn:Hh;
    [|apply Hdone; assumption].
  apply handleAnalyticsEventResponse_frame in Hh.
  destruct Hh as (_ & Hc' & Hw' & Hr' & _). apply Hdone; congruence.
Qed.

(** *** C1 *)

Definition legacy_browser : State :=
  constructor {| token := "token"; serviceUrl := DEFAULT_ANALYTICS_URI;
                 options_organization := None |} false.

Definition click_response : Response :=
  {| response_visitId := Some "visit"; response_visitorId := Some "visitor";
     searchEventResponses := None |}.

(** C1.  Two sends that do not unload the page are meant to be serialized:
    the second is not to start its call before the first has settled.  In a
    browser without [navigator.sendBeacon] this fails: a document view event
    sent in between goes through [sendUsingEndpointCaller], takes the slot
    over and empties it when it settles, so the second custom event starts
    its call while the call of the first is still in flight. *)
Theorem fallback_unload_send_breaks_serialization :
  let st :=
    run [call_sendCustomEvent "a"; call_sendDocumentViewEvent "d";
         call_settles 1 (Fulfilled click_response); call_sendCustomEvent "b"]
      legacy_browser in
  List.map (fun c => (fst c, url (snd c), requestData (snd c))) (calls st)
  = [(0%nat, "https://usageanalytics.coveo.com/rest/v15/analytics/custom",
      CustomEvent "a");
     (2%nat, "https://usageanalytics.coveo.com/rest/v15/analytics/custom",
      CustomEvent "b")]
  /\ pendingRequest st = Some 2%nat.
Proof. vm_compute. split; reflexivity. Qed.

(** *** C5 *)

(** The response carries the pair: on itself, or, when it has no visit id
    of its own, on the first of its [searchEventResponses]. *)
Definition carries (response : Response) (visit visitor : string) : Prop :=
  visit <> "" /\ visitor <> "" /\
  ((response_visitId response = Some visit
    /\ response_visitorId response = Some visitor)
   \/ (truthy (response_visitId response) = false
       /\ exists first rest,
           searchEventResponses response = Some (first :: rest)
           /\ visitId first = Some visit /\ visitorId first = Some visitor)).

(** C5.  Once a response that carries a visit id and a visitor id has been
    handled, [getCurrentVisitId] gives the new visit id and leaves the state
    as it is (no call is made), and the [visitorId] cookie holds the new
    visitor id. *)
Theorem response_updates_session response visit visitor st :
  carries response visit visitor ->
  exists st',
    handleAnalyticsEventResponse response st = Some st'
    /\ getCurrentVisitId st' = (Some visit, st')
    /\ Cookie.get "visitorId" (cookies st') = Some visitor
    /\ calls st' = calls st /\ beacons st' = beacons st.
Proof.
  intros (Hvisit & Hvisitor & Hpair).
  destruct visit as [|c visit']; [contradiction|].
  destruct visitor as [|c' visitor']; [contradiction|].
  unfold handleAnalyticsEventResponse, getCurrentVisitId.
  destruct Hpair as [[Hv Hu]|(Hno & first & rest & Hresponses & Hv & Hu)].
  - rewrite Hv, Hu. eexists. split; [reflexivity|]. simpl.
    unfold Cookie.get, Cookie.set. rewrite lookup_insert_eq. auto.
  - rewrite Hno, Hresponses. simpl. rewrite Hv, Hu.
    eexists. split; [reflexivity|]. simpl.
    unfold Cookie.get, Cookie.set. rewrite lookup_insert_eq. auto.
Qed.

Definition batch_response : Response :=
  {| response_visitId := None; response_visitorId := None;
     searchEventResponses :=
       Some [{| visitId := Some "visit-2"; visitorId := Some "visitor-2" |};
             {| visitId := Some "visit-3"; visitorId := Some "visitor-3" |}] |}.

Lemma response_updates_session_witness :
  carries batch_response "visit-2" "visitor-2"
  /\ exists st',
      handleAnalyticsEventResponse batch_response legacy_browser = Some st'
      /\ getCurrentVisitId st' = (Some "visit-2", st')
      /\ Cookie.get "visitorId" (cookies st') = Some "visitor-2"
      /\ calls st' = calls legacy_browser /\ beacons st' = beacons legacy_browser.
Proof.
  assert (H : carries batch_response "visit-2" "visitor-2").
  { split; [discriminate|]. split; [discriminate|]. right.
    split; [reflexivity|]. eexists _, _. repeat split; reflexivity. }
  split; [exact H|].
  exact (response_updates_session batch_response "visit-2" "visitor-2" legacy_browser H).
Defined.

(** *** C9 *)

(** C9.  [sendSearchEvents] on an empty list makes no call and returns
    [undefined].  On a list that is not empty it posts the list to the
    [searches] path: at once when the slot is empty, and otherwise through a
    callback that waits on the pending promise and makes the same post when
    it runs on an empty slot. *)
Theorem sendSearchEvents_empty_or_posts st :
  sendSearchEvents [] st = (undefined, st)
  /\ forall searchEvents, searchEvents <> [] ->
     match pendingRequest st with
     | None =>
         exists parameters st',
           sendSearchEvents searchEvents st = (promise_of_call (promises st), st')
           /\ calls st' = calls st ++ [(promises st, parameters)]
           /\ method parameters = "POST"
           /\ url parameters =
                mergePath (serviceUrl (options st))
                  ("/rest/" +:+ analytics_version st +:+ "/analytics/searches")
           /\ requestData parameters = SearchEvents searchEvents
     | Some pending =>
         exists callback st',
           sendSearchEvents searchEvents st = (promise_after pending, st')
           /\ calls st' = calls st
           /\ waiting st' = waiting st ++ [(pending, callback)]
           /\ forall later rest,
                ready later = callback :: rest -> pendingRequest later = None ->
                exists parameters,
                  calls (run_ready later) = calls later ++ [(promises later, parameters)]
                  /\ method parameters = "POST"
                  /\ url parameters =
                       mergePath (serviceUrl (options later))
                         ("/rest/" +:+ analytics_version later +:+ "/analytics/searches")
                  /\ requestData parameters = SearchEvents searchEvents
     end.
Proof.
  split; [reflexivity|].
  intros searchEvents Hne. unfold sendSearchEvents.
  destruct searchEvents as [|event events]; [contradiction|].
  cbn [length Nat.ltb Nat.leb].
  destruct (pendingRequest st) as [pending|] eqn:Hslot.
  - rewrite (send_waits _ _ _ pending) by assumption.
    eexists _, _. split; [reflexivity|]. split; [reflexivity|]. split; [reflexivity|].
    intros later rest Hready Hempty. unfold run_ready. rewrite Hready.
    cbn [deferred_data deferred_path deferred_paramName].
    destruct (send_posts (SearchEvents (event :: events)) "searches" "searchEvents"
                (set_ready rest later) Hempty)
      as (parameters & st' & Hsend & Hcalls & _ & Hmethod & Hurl & Hdata).
    rewrite Hsend. exists parameters. simpl. auto.
  - destruct (send_posts (SearchEvents (event :: events)) "searches" "searchEvents" st Hslot)
      as (parameters & st' & Hsend & Hcalls & _ & Hmethod & Hurl & Hdata).
    exists parameters, st'. auto.
Qed.

Lemma sendSearchEvents_empty_or_posts_witness :
  ["search"] <> ([] : list ISearchEvent)
  /\ exists parameters st',
      sendSearchEvents ["search"] legacy_browser = (promise_of_call 0%nat, st')
      /\ calls st' = [(0%nat, parameters)]
      /\ method parameters = "POST"
      /\ url parameters = "https://usageanalytics.coveo.com/rest/v15/analytics/searches"
      /\ requestData parameters = SearchEvents ["search"].
Proof.
  split; [discriminate|].
  exact (proj2 (sendSearchEvents_empty_or_posts legacy_browser) ["search"]
           ltac:(discriminate)).
Defined.

End AnalyticsEndpointSpec.

(** ** More on AnalyticsSuggestions *)

Module AnalyticsSuggestionsMore.
Import AnalyticsSuggestions AnalyticsSuggestionsSpec.

(** *** Joined strings *)

(** The join is at least as long as its entries together. *)
Lemma total_length_join array :
  total_length array <= Z.of_nat (String.length (join array)).
Proof.
  unfold join. induction array as [|entry rest IH]; [simpl; lia|].
  destruct rest as [|next rest'].
  - simpl. lia.
  - change (String.concat ";" (entry :: next :: rest'))
      with (entry +:+ ";" +:+ String.concat ";" (next :: rest')).
    rewrite !length_append.
    change (total_length (entry :: next :: rest'))
      with (Z.of_nat (String.length entry) + total_length (next :: rest')).
    lia.
Qed.



(** *** X1 *)

(** X1.  When the collapsed and stripped list, joined, is shorter than 256,
    [cleanCustomData] returns that join: no entry is left out. *)
Theorem cleanCustomData_keeps_short_lists toClean :
  Z.of_nat (String.length (join (strip_delimiter (collapse_consecutive toClean)))) < 256 ->
  cleanCustomData toClean default_rejectLength
  = join (strip_delimiter (collapse_consecutive toClean)).
Proof.
  intros Hshort.
  assert (Hpass : pass toClean default_rejectLength
                  = strip_delimiter (collapse_consecutive toClean)).
  { unfold pass. apply reduced_all.
    pose proof (total_length_join (strip_delimiter (collapse_consecutive toClean))).
    unfold default_rejectLength. lia. }
  rewrite cleanCustomData_unfold. cbv zeta. rewrite Hpass.
  destruct (Z.leb_spec 256
              (Z.of_nat (String.length (join (strip_delimiter (collapse_consecutive toClean))))));
    [lia|reflexivity].
Qed.

Lemma cleanCustomData_keeps_short_lists_witness :
  Z.of_nat (String.length
              (join (strip_delimiter (collapse_consecutive ["se"; "sea"; "sea"; "sea;rch"]))))
  < 256
  /\ cleanCustomData ["se"; "sea"; "sea"; "sea;rch"] default_rejectLength
     = "se;sea;search".
Proof.
  split; [vm_compute; reflexivity|].
  apply (cleanCustomData_keeps_short_lists ["se"; "sea"; "sea"; "sea;rch"]).
  vm_compute. reflexivity.
Defined.

(** *** X2 *)






(** *** X3 *)

Lemma total_length_last array (entry : string) :
  last array = Some entry -> Z.of_nat (String.length entry) <= total_length array.
Proof.
  intros Hlast. apply last_Some in Hlast. destruct Hlast as [front ->].
  induction front as [|x front IH]; simpl in *; lia.
Qed.

(** X3.  When the last entry of the collapsed and stripped list is longer
    than 256, the scan from the end keeps nothing, the older entries
    included, and [cleanCustomData] returns the empty string. *)
Theorem cleanCustomData_last_entry_too_long toClean entry :
  last (strip_delimiter (collapse_consecutive toClean)) = Some entry ->
  256 < Z.of_nat (String.length entry) ->
  cleanCustomData toClean default_rejectLength = "".
Proof.
  intros Hlast Hlong.
  assert (Hpass : pass toClean default_rejectLength = []).
  { unfold pass.
    pose proof (reduced_suffix (strip_delimiter (collapse_consecutive toClean))
                  default_rejectLength) as Hsuf.
    pose proof (reduced_total (strip_delimiter (collapse_consecutive toClean))
                  default_rejectLength ltac:(unfold default_rejectLength; lia)) as Htotal.
    destruct (reducedToRejectLengthOrLess _ _) as [|kept0 kept'] eqn:Hkept; [reflexivity|].
    exfalso. destruct Hsuf as [front Hfront].
    rewrite Hfront, last_app_cons in Hlast.
    apply total_length_last in Hlast. unfold default_rejectLength in Htotal. lia. }
  rewrite cleanCustomData_unfold. cbv zeta. rewrite Hpass. reflexivity.
Qed.

Lemma cleanCustomData_last_entry_too_long_witness :
  last (strip_delimiter (collapse_consecutive ["short"; repeat_char "x" 300]))
  = Some (repeat_char "x" 300)
  /\ 256 < Z.of_nat (String.length (repeat_char "x" 300))
  /\ cleanCustomData ["short"; repeat_char "x" 300] default_rejectLength = "".
Proof.
  split; [vm_compute; reflexivity|]. split; [vm_compute; reflexivity|].
  apply (cleanCustomData_last_entry_too_long _ (repeat_char "x" 300));
    vm_compute; reflexivity.
Defined.

(** *** X4 *)

(** X4.  The two fields that [onRowSelection] cleans before it logs them, the
    partial queries and the suggestions, are shorter than 256 characters in
    the event, whatever the component holds; the partial query of the
    event is the word of the omnibox as it is. *)
Theorem logged_custom_data_fits this chosen args :
  exists meta,
    snd (onRowSelection this chosen args)
    = [args_clear; args_closeOmnibox; queryStateModel_set_q chosen;
       usageAnalytics_logSearchEvent meta; queryController_executeQuery]
    /\ (String.length (meta_partialQueries meta) < 256)%nat
    /\ (String.length (suggestions meta) < 256)%nat
    /\ partialQuery meta = completeQueryExpression_word args.
Proof.
  eexists. split; [reflexivity|]. cbn [meta_partialQueries suggestions partialQuery].
  split; [apply cleanCustomData_length|]. split; [apply cleanCustomData_length|reflexivity].
Qed.


(** *** The component between two events *)

(** What is displayed, when something is, was filed from rendered rows. *)
Definition displayed_from_rows (this : AnalyticsSuggestions) : Prop :=
  currentlyDisplayedSuggestions this = None
  \/ exists selectables, displaying selectables this.

Lemma transition_displayed buildOmniboxElement this this' :
  transition buildOmniboxElement this this' ->
  displayed_from_rows this -> displayed_from_rows this'.
Proof.
  intros Hstep Hinv.
  destruct Hstep as [this args [results|reason]|this|this suggestion|this chosen args].
  - right. eexists. apply searchPromise_then_displaying.
  - exact Hinv.
  - exact Hinv.
  - rewrite selectSuggestion_state. exact Hinv.
  - exact Hinv.
Qed.

Lemma reachable_displayed buildOmniboxElement opts this :
  reachable buildOmniboxElement opts this -> displayed_from_rows this.
Proof.
  unfold reachable. intros Hreach.
  eapply (rtc_ind_r displayed_from_rows); [| |exact Hreach].
  - left. reflexivity.
  - intros before after _ Hstep Hinv. eapply transition_displayed; eassumption.
Qed.

Lemma transition_partialQueries buildOmniboxElement this this' :
  transition buildOmniboxElement this this' ->
  "" ∉ partialQueries this -> "" ∉ partialQueries this'.
Proof.
  intros Hstep Hinv.
  destruct Hstep as [this args [results|reason]|this|this suggestion|this chosen args].
  - cbn [deferred_settles searchPromise_then fst partialQueries].
    destruct (String.eqb_spec (completeQueryExpression_word args) "") as [Heq|Hne].
    + rewrite andb_false_r. exact Hinv.
    + destruct (negb _); simpl; [|exact Hinv].
      intros Hin. apply elem_of_app in Hin. destruct Hin as [Hin|Hin]; [exact (Hinv Hin)|].
      apply list_elem_of_singleton in Hin. congruence.
  - exact Hinv.
  - simpl. apply not_elem_of_nil.
  - rewrite selectSuggestion_state. exact Hinv.
  - exact Hinv.
Qed.

(** *** X5 *)

(** X5.  In every state the component can reach, the history of partial
    queries holds no empty string: only a word that is not empty is pushed,
    and only when the top queries came back with a result. *)
Theorem partialQueries_never_hold_empty_word buildOmniboxElement opts this :
  reachable buildOmniboxElement opts this -> "" ∉ partialQueries this.
Proof.
  unfold reachable. intros Hreach.
  eapply (rtc_ind_r (fun this => "" ∉ partialQueries this)); [| |exact Hreach].
  - simpl. apply not_elem_of_nil.
  - intros before after _ Hstep Hinv. eapply transition_partialQueries; eassumption.
Qed.

Definition typed_then_cleared : AnalyticsSuggestions :=
  querySuccess
    (fst (deferred_settles (fun _ _ => {| root := 0; findAll_selectable := [] |})
            (constructor default_options) {| completeQueryExpression_word := "fo" |}
            (Fulfilled (E := unit) ["foo"]))).

Lemma partialQueries_never_hold_empty_word_witness :
  reachable (fun _ _ => {| root := 0; findAll_selectable := [] |}) default_options
    typed_then_cleared
  /\ "" ∉ partialQueries typed_then_cleared.
Proof.
  assert (H : reachable (fun _ _ => {| root := 0; findAll_selectable := [] |})
                default_options typed_then_cleared).
  { eapply rtc_l; [apply populate_settles|]. apply rtc_once. apply query_succeeds. }
  split; [exact H|].
  exact (partialQueries_never_hold_empty_word _ default_options typed_then_cleared H).
Defined.

(** *** X6 *)

(** X6.  In every state the component can reach, a record of the displayed
    suggestions is filed under the text of its element, and two records with
    the same position are one record under one label: the position given to
    [selectSuggestion] picks at most one of them, in whatever order the
    object is gone through. *)
Theorem displayed_positions_pick_one_record buildOmniboxElement opts this displayed
    label1 label2 shown1 shown2 :
  reachable buildOmniboxElement opts this ->
  currentlyDisplayedSuggestions this = Some displayed ->
  displayed !! label1 = Some shown1 ->
  displayed !! label2 = Some shown2 ->
  label1 = textContent (element shown1)
  /\ (pos shown1 = pos shown2 -> label1 = label2 /\ shown1 = shown2).
Proof.
  intros Hreach Hset H1 H2. apply reachable_displayed in Hreach.
  destruct Hreach as [Hunset|[selectables Hshown]]; [congruence|].
  unfold displaying in Hshown. rewrite Hshown in Hset. injection Hset as <-.
  pose proof (record_displayed_inv 0 selectables ∅ label1 shown1 H1) as I1.
  pose proof (record_displayed_inv 0 selectables ∅ label2 shown2 H2) as I2.
  destruct I1 as [I1|(j1 & Hj1 & Hpos1 & Hlabel1)]; [rewrite lookup_empty in I1; discriminate|].
  destruct I2 as [I2|(j2 & Hj2 & Hpos2 & Hlabel2)]; [rewrite lookup_empty in I2; discriminate|].
  split; [exact Hlabel1|]. intros Hpos.
  assert (j1 = j2) by lia. subst j2. rewrite Hj1 in Hj2. injection Hj2 as Helement.
  assert (Hsame : label1 = label2) by congruence.
  split; [exact Hsame|]. rewrite Hsame in H1. congruence.
Qed.

Definition foo_bar_shown : AnalyticsSuggestions :=
  fst (deferred_settles (fun _ _ => {| root := 0; findAll_selectable := foo_bar |})
         (constructor default_options) {| completeQueryExpression_word := "" |}
         (Fulfilled (E := unit) ["foo"; "bar"])).

Lemma displayed_positions_pick_one_record_witness :
  reachable (fun _ _ => {| root := 0; findAll_selectable := foo_bar |}) default_options
    foo_bar_shown
  /\ "foo" = textContent (element {| element := {| node := 10; textContent := "foo" |}; pos := 0 |})
  /\ (0%nat = 1%nat ->
      "foo" = "bar"
      /\ {| element := {| node := 10; textContent := "foo" |}; pos := 0 |}
         = {| element := {| node := 11; textContent := "bar" |}; pos := 1 |}).
Proof.
  assert (H : reachable (fun _ _ => {| root := 0; findAll_selectable := foo_bar |})
                default_options foo_bar_shown).
  { apply rtc_once. apply populate_settles. }
  split; [exact H|].
  exact (displayed_positions_pick_one_record _ default_options foo_bar_shown
           (record_displayed 0 foo_bar ∅) "foo" "bar"
           {| element := {| node := 10; textContent := "foo" |}; pos := 0 |}
           {| element := {| node := 11; textContent := "bar" |}; pos := 1 |}
           H eq_refl eq_refl eq_refl).
Defined.

(** *** X7 *)

(** The component shows these rows: the own records and the prototype of
    the object are what the loop over the rows left. *)
Definition rendered (selectables : list HTMLElement) (this : AnalyticsSuggestions) : Prop :=
  displaying selectables this
  /\ currentlyDisplayedSuggestions_prototype this = record_prototype 0 selectables None.

(** X7.  While rows are displayed, [selectSuggestion] leaves the component
    as it is and has one of three outcomes: nothing; one click, on one of
    the displayed rows; or a [TypeError] and no click, which only an
    identifier that reads as no number, is the text of no recorded row and
    is a name the object inherits can bring about. *)
Theorem selectSuggestion_clicks_a_displayed_row selectables this suggestion :
  rendered selectables this ->
  fst (selectSuggestion this suggestion) = this
  /\ (snd (selectSuggestion this suggestion) = []
      \/ (exists i row, selectables !! i = Some row
                        /\ snd (selectSuggestion this suggestion) = [trigger_click row])
      \/ (snd (selectSuggestion this suggestion) = [throw_TypeError]
          /\ isNaN suggestion = true
          /\ record_displayed 0 selectables ∅ !! ToPropertyKey suggestion = None
          /\ inherited_name (record_prototype 0 selectables None)
               (ToPropertyKey suggestion) = true)).
Proof.
  intros [Hshown Hproto]. split; [apply selectSuggestion_state|].
  unfold displaying in Hshown. unfold selectSuggestion. rewrite Hshown, Hproto.
  assert (Hrow : forall key shown,
             record_displayed 0 selectables ∅ !! key = Some shown ->
             exists i, selectables !! i = Some (element shown)).
  { intros key shown Hkey. apply record_displayed_inv in Hkey.
    destruct Hkey as [Hempty|(j & Hj & _)]; [rewrite lookup_empty in Hempty; discriminate|].
    exists j. exact Hj. }
  assert (Hprototype : forall shown,
             record_prototype 0 selectables None = Some shown ->
             exists i, selectables !! i = Some (element shown)).
  { intros shown Hset. apply record_prototype_inv in Hset.
    destruct Hset as [Hnone|(j & Hj & _)]; [discriminate|].
    exists j. exact Hj. }
  destruct (isNaN suggestion).
  - cbv zeta. unfold get_property, inherited_name, inherited_from_Object.
    destruct (record_displayed 0 selectables ∅ !! ToPropertyKey suggestion)
      as [found|] eqn:Hkey.
    { right. left. destruct (Hrow _ _ Hkey) as [i Hi]. exists i, (element found). auto. }
    destruct (String.eqb (ToPropertyKey suggestion) "__proto__").
    + rewrite orb_true_r.
      destruct (record_prototype 0 selectables None) as [shown|] eqn:Hp.
      * right. left. destruct (Hprototype shown eq_refl) as [i Hi].
        exists i, (element shown). auto.
      * right. right. auto.
    + rewrite orb_false_r.
      destruct (record_prototype 0 selectables None) as [shown|] eqn:Hp.
      * destruct (String.eqb (ToPropertyKey suggestion) "element").
        { right. right. simpl. rewrite orb_true_r. auto. }
        destruct (String.eqb (ToPropertyKey suggestion) "pos").
        { simpl. destruct (pos shown =? 0)%nat; simpl; [left; reflexivity|].
          right. right. rewrite orb_true_r. auto. }
        destruct (bool_decide (ToPropertyKey suggestion ∈ Object_prototype_names)); simpl;
          [right; right; auto|left; reflexivity].
      * destruct (bool_decide (ToPropertyKey suggestion ∈ Object_prototype_names)); simpl;
          [right; right; auto|left; reflexivity].
  - destruct (Underscore.findWhere _ _) as [found|] eqn:Hfind; [|left; reflexivity].
    right. left. apply findWhere_Some in Hfind. destruct Hfind as (key & Hkey & _).
    destruct (Hrow _ _ Hkey) as [i Hi]. exists i, (element found). auto.
Qed.

Lemma selectSuggestion_clicks_a_displayed_row_witness :
  rendered foo_bar (showing foo_bar)
  /\ fst (selectSuggestion (showing foo_bar) (Str "foo")) = showing foo_bar
  /\ snd (selectSuggestion (showing foo_bar) (Str "foo"))
     = [trigger_click {| node := 10; textContent := "foo" |}]
  /\ snd (selectSuggestion (showing foo_bar) (Str "toString")) = [throw_TypeError].
Proof.
  assert (H : rendered foo_bar (showing foo_bar)) by (split; reflexivity).
  split; [exact H|].
  destruct (selectSuggestion_clicks_a_displayed_row foo_bar (showing foo_bar) (Str "foo") H)
    as [Hstate _].
  split; [exact Hstate|]. split; reflexivity.
Defined.

(** *** X8 *)

(** X8.  A number that is negative, or not below the number of the displayed
    rows, selects nothing. *)
Theorem selectSuggestion_position_out_of_range selectables this z :
  displaying selectables this ->
  z < 0 \/ Z.of_nat (length selectables) <= z ->
  selectSuggestion this (Num (Int z)) = (this, []).
Proof.
  intros Hshown Hrange. unfold selectSuggestion. rewrite Hshown. cbn [isNaN].
  destruct (Underscore.findWhere _ _) as [found|] eqn:Hfind; [|reflexivity].
  exfalso. apply findWhere_Some in Hfind. destruct Hfind as (key & Hkey & Htest).
  apply record_displayed_inv in Hkey.
  destruct Hkey as [Hempty|(j & Hj & Hpos & _)]; [rewrite lookup_empty in Hempty; discriminate|].
  apply lookup_lt_Some in Hj. simpl in Htest. apply Z.eqb_eq in Htest. lia.
Qed.

Lemma selectSuggestion_position_out_of_range_witness :
  displaying foo_bar (showing foo_bar)
  /\ (2 < 0 \/ Z.of_nat (length foo_bar) <= 2)
  /\ selectSuggestion (showing foo_bar) (Num (Int 2)) = (showing foo_bar, []).
Proof.
  split; [reflexivity|].
  assert (H : 2 < 0 \/ Z.of_nat (length foo_bar) <= 2) by (right; simpl; lia).
  split; [exact H|].
  exact (selectSuggestion_position_out_of_range foo_bar (showing foo_bar) 2 eq_refl H).
Defined.

(** *** X9 *)

Lemma record_displayed_is_Some i selectables (displayed : gmap string Displayed) label :
  label <> "__proto__" ->
  is_Some (record_displayed i selectables displayed !! label)
  <-> is_Some (displayed !! label)
      \/ exists j row, selectables !! j = Some row /\ textContent row = label.
Proof.
  intros Hown. revert i displayed.
  induction selectables as [|selectable rest IH]; intros i displayed.
  - simpl. split; [auto|]. intros [H|(j & row & Hj & _)]; [exact H|discriminate].
  - simpl. rewrite IH. split.
    + intros [Hhere|(j & row & Hj & Hlabel)].
      * destruct (String.eqb (textContent selectable) "__proto__"); [left; exact Hhere|].
        destruct (decide (textContent selectable = label)) as [Heq|Hne].
        -- right. exists 0%nat, selectable. auto.
        -- left. rewrite lookup_insert_ne in Hhere by assumption. exact Hhere.
      * right. exists (S j), row. auto.
    + intros [Hold|(j & row & Hj & Hlabel)].
      * left. destruct (String.eqb (textContent selectable) "__proto__"); [exact Hold|].
        destruct (decide (textContent selectable = label)) as [Heq|Hne].
        -- subst label. rewrite lookup_insert_eq. eexists. reflexivity.
        -- rewrite lookup_insert_ne by assumption. exact Hold.
      * destruct j as [|j'].
        -- simpl in Hj. injection Hj as ->. left. subst label.
           destruct (String.eqb_spec (textContent row) "__proto__") as [Heq|Hne];
             [contradiction|].
           rewrite lookup_insert_eq. eexists. reflexivity.
        -- right. exists j', row. auto.
Qed.

(** X9.  After the top queries came back, the own keys of the object of
    displayed suggestions are the texts of the rendered rows other than
    [__proto__], no more and no less; a row that reads [__proto__] leaves no
    own key, and is the prototype of the object instead. *)
Theorem displayed_labels_are_rendered_texts buildOmniboxElement this args results label :
  let this' := fst (searchPromise_then buildOmniboxElement this args results) in
  let selectables :=
    findAll_selectable
      (buildOmniboxElement
         (Underscore.map results (fun result => {| value := result |})) args) in
  exists displayed,
    currentlyDisplayedSuggestions this' = Some displayed
    /\ (is_Some (displayed !! label)
        <-> label <> "__proto__"
            /\ exists j row, selectables !! j = Some row /\ textContent row = label)
    /\ (is_Some (currentlyDisplayedSuggestions_prototype this')
        <-> exists j row, selectables !! j = Some row /\ textContent row = "__proto__").
Proof.
  cbv zeta. eexists. split; [reflexivity|]. split.
  - split.
    + intros Hsome.
      assert (Hown : label <> "__proto__").
      { intros ->. destruct Hsome as [shown Hshown].
        rewrite record_displayed_proto, lookup_empty in Hshown. discriminate. }
      split; [exact Hown|].
      apply record_displayed_is_Some in Hsome; [|exact Hown].
      destruct Hsome as [Hempty|H]; [|exact H]. rewrite lookup_empty in Hempty.
      destruct Hempty as [x Hx]. discriminate.
    + intros [Hown H]. apply record_displayed_is_Some; [exact Hown|]. right. exact H.
  - cbn [searchPromise_then fst currentlyDisplayedSuggestions_prototype].
    split.
    + intros [shown Hshown]. apply record_prototype_inv in Hshown.
      destruct Hshown as [Hnone|(j & Hj & _ & Hlabel)]; [discriminate|].
      exists j, (element shown). auto.
    + intros (j & row & Hj & Hlabel). eapply record_prototype_is_Some; eassumption.
Qed.

End AnalyticsSuggestionsMore.

(** ** More on AnalyticsEndpoint *)

Module AnalyticsEndpointMore.
Import AnalyticsEndpoint AnalyticsEndpointSpec.

(** *** What a response leaves alone *)

Lemma handleAnalyticsEventResponse_configuration response st st' :
  handleAnalyticsEventResponse response st = Some st' ->
  options st' = options st /\ organization st' = organization st
  /\ CUSTOM_ANALYTICS_VERSION st' = CUSTOM_ANALYTICS_VERSION st
  /\ beforeunload_listeners st' = beforeunload_listeners st.
Proof.
  unfold handleAnalyticsEventResponse.
  destruct (truthy (response_visitId response)).
  - intros [= <-]. destruct (truthy _), (truthy _); simpl; auto.
  - destruct (searchEventResponses response) as [responses|].
    + destruct (Underscore.first responses) as [first|]; [|discriminate].
      intros [= <-]. destruct (truthy _), (truthy _); simpl; auto.
    + intros [= <-]. simpl. auto.
Qed.

Lemma filter_partition_length {A} (test : A -> bool) (l : list A) :
  (length (List.filter test l) + length (List.filter (fun x => negb (test x)) l)
   = length l)%nat.
Proof.
  induction l as [|x l IH]; [reflexivity|]. simpl.
  destruct (test x); simpl; lia.
Qed.

Lemma settle_empties_slot_and_keeps call outcome st :
  call ∈ fst <$> calls st ->
  pendingRequest (settle call outcome st) = None
  /\ calls (settle call outcome st)
     = List.filter (fun c => negb (fst c =? call)%nat) (calls st)
  /\ waiting (settle call outcome st)
     = List.filter (fun w => negb (fst w =? call)%nat) (waiting st)
  /\ ready (settle call outcome st)
     = ready st ++ List.map snd (List.filter (fun w => (fst w =? call)%nat) (waiting st))
  /\ promises (settle call outcome st) = promises st
  /\ navigator_sendBeacon (settle call outcome st) = navigator_sendBeacon st.
Proof.
  intros Hin. unfold settle. rewrite bool_decide_eq_true_2 by exact Hin.
  set (st1 := set_calls _ st).
  assert (Hany : forall st2,
             calls st2 = calls st1 -> waiting st2 = waiting st -> ready st2 = ready st ->
             promises st2 = promises st ->
             navigator_sendBeacon st2 = navigator_sendBeacon st ->
             let st3 := set_pendingRequest None st2 in
             let final :=
               set_ready
                 (ready st3 ++ List.map snd (List.filter (fun w => (fst w =? call)%nat)
                                               (waiting st3)))
                 (set_waiting (List.filter (fun w => negb (fst w =? call)%nat) (waiting st3))
                    st3) in
             pendingRequest final = None
             /\ calls final = List.filter (fun c => negb (fst c =? call)%nat) (calls st)
             /\ waiting final = List.filter (fun w => negb (fst w =? call)%nat) (waiting st)
             /\ ready final
                = ready st ++ List.map snd (List.filter (fun w => (fst w =? call)%nat)
                                              (waiting st))
             /\ promises final = promises st
             /\ navigator_sendBeacon final = navigator_sendBeacon st).
  { intros st2 Hc Hw Hr Hp Hn. simpl. rewrite Hc, Hw, Hr, Hp, Hn. auto 10. }
  destruct outcome as [response|reason]; [|apply Hany; reflexivity].
  destruct (handleAnalyticsEventResponse response st1) as [st'|] eqn:Hh;
    [|apply Hany; reflexivity].
  apply handleAnalyticsEventResponse_frame in Hh.
  destruct Hh as (_ & Hc & Hw & Hr & Hn & _ & Hp). apply Hany; assumption.
Qed.

(** *** X10 *)

(** X10.  When a call settles, the slot is emptied whatever it holds, that
    call and no other leaves the calls in flight, and the callbacks that
    waited on it, and no others, become ready. *)
Theorem settle_empties_the_slot call outcome st :
  call ∈ fst <$> calls st ->
  pendingRequest (settle call outcome st) = None
  /\ calls (settle call outcome st)
     = List.filter (fun c => negb (fst c =? call)%nat) (calls st)
  /\ waiting (settle call outcome st)
     = List.filter (fun w => negb (fst w =? call)%nat) (waiting st)
  /\ ready (settle call outcome st)
     = ready st ++ List.map snd (List.filter (fun w => (fst w =? call)%nat) (waiting st)).
Proof.
  intros Hin.
  destruct (settle_empties_slot_and_keeps call outcome st Hin)
    as (Hslot & Hcalls & Hwaiting & Hready & _).
  auto.
Qed.

Definition two_in_flight : State :=
  run [call_sendCustomEvent "a"; call_sendDocumentViewEvent "d"] legacy_browser.

Lemma settle_empties_the_slot_witness :
  0%nat ∈ fst <$> calls two_in_flight
  /\ pendingRequest two_in_flight = Some 1%nat
  /\ pendingRequest (settle 0 (Rejected {| statusCode := 500; body := "" |}) two_in_flight)
     = None
  /\ fst <$> calls (settle 0 (Rejected {| statusCode := 500; body := "" |}) two_in_flight)
     = [1%nat].
Proof.
  assert (H : 0%nat ∈ fst <$> calls two_in_flight) by (vm_compute; left).
  split; [exact H|]. split; [reflexivity|].
  destruct (settle_empties_the_slot 0 (Rejected {| statusCode := 500; body := "" |})
              two_in_flight H) as (Hslot & Hcalls & _).
  split; [exact Hslot|]. rewrite Hcalls. reflexivity.
Defined.

(** *** X11 *)

(** X11.  A successful response whose [searchEventResponses] is an empty
    array, and that has no visit id of its own, makes
    [handleAnalyticsEventResponse] throw: the visit id and the cookies stay
    as they were, and the slot is emptied all the same. *)
Theorem empty_batch_response_is_dropped call response st :
  truthy (response_visitId response) = false ->
  searchEventResponses response = Some [] ->
  call ∈ fst <$> calls st ->
  handleAnalyticsEventResponse response st = None
  /\ this_visitId (settle call (Fulfilled response) st) = this_visitId st
  /\ cookies (settle call (Fulfilled response) st) = cookies st
  /\ pendingRequest (settle call (Fulfilled response) st) = None.
Proof.
  intros Hno Hempty Hin.
  assert (Hthrow : forall st0, handleAnalyticsEventResponse response st0 = None).
  { intros st0. unfold handleAnalyticsEventResponse. rewrite Hno, Hempty. reflexivity. }
  split; [apply Hthrow|].
  unfold settle. rewrite bool_decide_eq_true_2 by exact Hin.
  rewrite Hthrow. simpl. auto.
Qed.

Definition empty_batch : Response :=
  {| response_visitId := None; response_visitorId := None;
     searchEventResponses := Some [] |}.

Definition one_search_sent : State :=
  run [call_sendSearchEvents ["search"]] legacy_browser.

Lemma empty_batch_response_is_dropped_witness :
  truthy (response_visitId empty_batch) = false
  /\ searchEventResponses empty_batch = Some []
  /\ 0%nat ∈ fst <$> calls one_search_sent
  /\ handleAnalyticsEventResponse empty_batch one_search_sent = None
  /\ this_visitId (settle 0 (Fulfilled empty_batch) one_search_sent)
     = this_visitId one_search_sent
  /\ cookies (settle 0 (Fulfilled empty_batch) one_search_sent) = cookies one_search_sent
  /\ pendingRequest (settle 0 (Fulfilled empty_batch) one_search_sent) = None.
Proof.
  assert (H : 0%nat ∈ fst <$> calls one_search_sent) by (vm_compute; left).
  split; [reflexivity|]. split; [reflexivity|]. split; [exact H|].
  exact (empty_batch_response_is_dropped 0 empty_batch one_search_sent eq_refl eq_refl H).
Defined.

(** *** X12 *)

(** X12.  Where the browser has [navigator.sendBeacon], a document view event
    returns no promise and leaves as a beacon to the [click] path, with the
    access token added last to its query string; no call is handed to the
    endpoint caller, and the slot and the waiting callbacks stay as they
    were. *)
Theorem document_view_leaves_as_beacon documentViewEvent st :
  navigator_sendBeacon st = true ->
  exists beacon,
    sendDocumentViewEvent documentViewEvent st
    = (undefined, set_beacons (beacons st ++ [beacon]) st)
    /\ beacon_data beacon = ClickEvent documentViewEvent
    /\ beacon_url beacon
       = mergePath (serviceUrl (options st))
           ("/rest/" +:+ analytics_version st +:+ "/analytics/click")
    /\ last (beacon_queryString beacon) = Some ("access_token=" +:+ token (options st)).
Proof.
  intros Hbeacon. unfold sendDocumentViewEvent, sendToService, sendDataBeforeUnload.
  rewrite Hbeacon. unfold sendDataBeforeUnloadUsingBeacon.
  eexists. split; [reflexivity|]. cbn [beacon_data beacon_url beacon_queryString].
  split; [reflexivity|]. split; [reflexivity|]. apply last_snoc.
Qed.

Definition modern_browser : State :=
  constructor {| token := "token"; serviceUrl := DEFAULT_ANALYTICS_URI;
                 options_organization := Some "acme" |} true.

Lemma document_view_leaves_as_beacon_witness :
  navigator_sendBeacon modern_browser = true
  /\ exists beacon,
      sendDocumentViewEvent "d" modern_browser
      = (undefined, set_beacons (beacons modern_browser ++ [beacon]) modern_browser)
      /\ beacon_data beacon = ClickEvent "d"
      /\ beacon_url beacon = "https://usageanalytics.coveo.com/rest/v15/analytics/click"
      /\ last (beacon_queryString beacon) = Some "access_token=token".
Proof.
  split; [reflexivity|].
  exact (document_view_leaves_as_beacon "d" modern_browser eq_refl).
Defined.

(** *** X13 *)

(** X13.  Where the browser has no [navigator.sendBeacon], a document view
    event does not wait for the pending request: its call is made at once,
    its promise takes the slot over, a [beforeunload] listener is added, and
    the callbacks that wait stay as they were. *)
Theorem document_view_falls_back_to_a_call documentViewEvent st :
  navigator_sendBeacon st = false ->
  exists parameters st',
    sendDocumentViewEvent documentViewEvent st = (undefined, st')
    /\ calls st' = calls st ++ [(promises st, parameters)]
    /\ requestData parameters = ClickEvent documentViewEvent
    /\ url parameters
       = mergePath (serviceUrl (options st))
           ("/rest/" +:+ analytics_version st +:+ "/analytics/click")
    /\ pendingRequest st' = Some (promises st)
    /\ waiting st' = waiting st /\ ready st' = ready st
    /\ beacons st' = beacons st
    /\ beforeunload_listeners st' = S (beforeunload_listeners st).
Proof.
  intros Hbeacon. unfold sendDocumentViewEvent, sendToService, sendDataBeforeUnload.
  rewrite Hbeacon. unfold sendDataBeforeUnloadUsingHack, sendUsingEndpointCaller.
  eexists _, _. split; [reflexivity|]. simpl. auto 10.
Qed.

Lemma document_view_falls_back_to_a_call_witness :
  navigator_sendBeacon one_search_sent = false
  /\ pendingRequest one_search_sent = Some 0%nat
  /\ exists parameters st',
      sendDocumentViewEvent "d" one_search_sent = (undefined, st')
      /\ calls st' = calls one_search_sent ++ [(1%nat, parameters)]
      /\ requestData parameters = ClickEvent "d"
      /\ url parameters = "https://usageanalytics.coveo.com/rest/v15/analytics/click"
      /\ pendingRequest st' = Some 1%nat
      /\ waiting st' = waiting one_search_sent /\ ready st' = ready one_search_sent
      /\ beacons st' = beacons one_search_sent
      /\ beforeunload_listeners st' = 1%nat.
Proof.
  split; [reflexivity|]. split; [reflexivity|].
  exact (document_view_falls_back_to_a_call "d" one_search_sent eq_refl).
Defined.

(** *** X14 *)

(** X14.  Once a response that carries a visit id and a visitor id has been
    handled, the next send made on an empty slot carries the visitor id,
    encoded, as the [visitor] parameter of its query string. *)
Theorem next_send_carries_the_visitor response visit visitor customEvent st :
  carries response visit visitor ->
  pendingRequest st = None ->
  exists st' parameters st'',
    handleAnalyticsEventResponse response st = Some st'
    /\ sendCustomEvent customEvent st' = (promise_of_call (promises st'), st'')
    /\ calls st'' = calls st' ++ [(promises st', parameters)]
    /\ ("visitor=" +:+ encodeURIComponent visitor) ∈ queryString parameters.
Proof.
  intros (Hvisit & Hvisitor & Hpair) Hslot.
  destruct visit as [|c visit']; [contradiction|].
  destruct visitor as [|c' visitor']; [contradiction|].
  assert (Hhandled : exists st',
             handleAnalyticsEventResponse response st = Some st'
             /\ Cookie.get "visitorId" (cookies st') = Some (String c' visitor')
             /\ pendingRequest st' = None).
  { unfold handleAnalyticsEventResponse.
    destruct Hpair as [[Hv Hu]|(Hno & first & rest & Hresponses & Hv & Hu)].
    - rewrite Hv, Hu. eexists. split; [reflexivity|]. simpl.
      unfold Cookie.get, Cookie.set. rewrite lookup_insert_eq. auto.
    - rewrite Hno, Hresponses. simpl. rewrite Hv, Hu.
      eexists. split; [reflexivity|]. simpl.
      unfold Cookie.get, Cookie.set. rewrite lookup_insert_eq. auto. }
  destruct Hhandled as (st' & Hh & Hcookie & Hslot').
  exists st'. unfold sendCustomEvent, sendToService. rewrite Hslot', Hcookie.
  unfold sendUsingEndpointCaller. eexists _, _. split; [exact Hh|].
  split; [reflexivity|]. split; [reflexivity|].
  cbn [queryString truthy String.eqb negb default]. apply elem_of_app. right. left.
Qed.

Lemma next_send_carries_the_visitor_witness :
  carries batch_response "visit-2" "visitor-2"
  /\ pendingRequest legacy_browser = None
  /\ exists st' parameters st'',
      handleAnalyticsEventResponse batch_response legacy_browser = Some st'
      /\ sendCustomEvent "c" st' = (promise_of_call (promises st'), st'')
      /\ calls st'' = calls st' ++ [(promises st', parameters)]
      /\ "visitor=visitor-2" ∈ queryString parameters.
Proof.
  assert (H : carries batch_response "visit-2" "visitor-2").
  { split; [discriminate|]. split; [discriminate|]. right.
    split; [reflexivity|]. eexists _, _. repeat split; reflexivity. }
  split; [exact H|]. split; [reflexivity|].
  exact (next_send_carries_the_visitor batch_response "visit-2" "visitor-2" "c"
           legacy_browser H eq_refl).
Defined.


(** *** What every run keeps *)

(** The path and the parameter name that go with a kind of data. *)
Definition path_of (data : Data) : string :=
  match data with
  | SearchEvents _ => "searches"
  | ClickEvent _ => "click"
  | CustomEvent _ => "custom"
  end.

(** A call as the sends make them. *)
Definition call_as_sent (opts : IAnalyticsEndpointOptions)
    (parameters : IEndpointCallParameters) : Prop :=
  method parameters = "POST"
  /\ errorsAsSuccess parameters = false
  /\ responseType parameters = "text"
  /\ requestDataType parameters = "application/json"
  /\ url parameters
     = mergePath (serviceUrl opts) ("/rest/v15/analytics/" +:+ path_of (requestData parameters))
  /\ requestData parameters <> SearchEvents [].

(** A callback as the sends leave them waiting. *)
Definition callback_as_left (callback : Deferred) : Prop :=
  match deferred_data callback with
  | SearchEvents searchEvents =>
      searchEvents <> [] /\ deferred_path callback = "searches"
  | ClickEvent _ => False
  | CustomEvent _ => deferred_path callback = "custom"
  end.

Definition as_sent (opts : IAnalyticsEndpointOptions) (st : State) : Prop :=
  options st = opts
  /\ CUSTOM_ANALYTICS_VERSION st = None
  /\ Forall (fun c => call_as_sent opts (snd c)) (calls st)
  /\ Forall (fun w => callback_as_left (snd w)) (waiting st)
  /\ Forall callback_as_left (ready st).

Lemma as_sent_constructor opts sendBeacon : as_sent opts (constructor opts sendBeacon).
Proof. repeat split; constructor. Qed.

Lemma sendToService_as_sent opts data path paramName unload st :
  as_sent opts st ->
  data <> SearchEvents [] ->
  path = path_of data ->
  (unload = false -> callback_as_left
                       {| deferred_data := data; deferred_path := path;
                          deferred_paramName := paramName |}) ->
  as_sent opts (snd (sendToService data path paramName unload st)).
Proof.
  intros (Hopts & Hversion & Hcalls & Hwaiting & Hready) Hdata -> Hcallback.
  assert (Hcall : forall queryString,
             call_as_sent opts
               {| errorsAsSuccess := false; method := "POST"; queryString := queryString;
                  requestData := data;
                  url := mergePath (serviceUrl (options st))
                           ("/rest/" +:+ analytics_version st +:+ "/analytics/" +:+ path_of data);
                  responseType := "text"; requestDataType := "application/json" |}).
  { intros queryString. unfold call_as_sent, analytics_version. rewrite Hversion, Hopts.
    simpl. auto 10. }
  unfold sendToService. destruct unload.
  - unfold sendDataBeforeUnload. destruct (navigator_sendBeacon st).
    + repeat split; assumption.
    + unfold sendDataBeforeUnloadUsingHack, sendUsingEndpointCaller.
      repeat split; simpl; try assumption.
      apply Forall_app. split; [exact Hcalls|]. constructor; [apply Hcall|constructor].
  - destruct (pendingRequest st).
    + repeat split; simpl; try assumption.
      apply Forall_app. split; [exact Hwaiting|].
      constructor; [exact (Hcallback eq_refl)|constructor].
    + unfold sendUsingEndpointCaller. repeat split; simpl; try assumption.
      apply Forall_app. split; [exact Hcalls|]. constructor; [apply Hcall|constructor].
Qed.

Lemma Forall_filter_keeps {A} (P : A -> Prop) (test : A -> bool) (l : list A) :
  Forall P l -> Forall P (List.filter test l).
Proof.
  induction 1 as [|x l Hx _ IH]; [constructor|]. simpl.
  destruct (test x); [constructor; assumption|assumption].
Qed.

Lemma settle_as_sent opts call outcome st :
  as_sent opts st -> as_sent opts (settle call outcome st).
Proof.
  intros Hinv. unfold settle. case_bool_decide as Hin; [|exact Hinv].
  destruct Hinv as (Hopts & Hversion & Hcalls & Hwaiting & Hready).
  set (st1 := set_calls _ st).
  assert (Hany : forall st2,
             options st2 = opts -> CUSTOM_ANALYTICS_VERSION st2 = None ->
             calls st2 = calls st1 -> waiting st2 = waiting st -> ready st2 = ready st ->
             as_sent opts
               (set_ready
                  (ready (set_pendingRequest None st2) ++
                   List.map snd (List.filter (fun w => (fst w =? call)%nat)
                                   (waiting (set_pendingRequest None st2))))
                  (set_waiting
                     (List.filter (fun w => negb (fst w =? call)%nat)
                        (waiting (set_pendingRequest None st2)))
                     (set_pendingRequest None st2)))).
  { intros st2 Ho Hv Hc Hw Hr. unfold as_sent. simpl. rewrite Hc, Hw, Hr.
    split; [exact Ho|]. split; [exact Hv|].
    split; [subst st1; simpl; apply Forall_filter_keeps, Hcalls|].
    split; [apply Forall_filter_keeps, Hwaiting|].
    apply Forall_app. split; [exact Hready|].
    apply Forall_map. apply Forall_filter_keeps, Hwaiting. }
  destruct outcome as [response|reason]; [|apply Hany; auto].
  destruct (handleAnalyticsEventResponse response st1) as [st'|] eqn:Hh;
    [|apply Hany; auto].
  pose proof (handleAnalyticsEventResponse_frame _ _ _ Hh) as (_ & Hc & Hw & Hr & _).
  pose proof (handleAnalyticsEventResponse_configuration _ _ _ Hh) as (Ho & _ & Hv & _).
  apply Hany; [rewrite Ho; exact Hopts|rewrite Hv; exact Hversion|assumption..].
Qed.

Lemma step_as_sent opts st event : as_sent opts st -> as_sent opts (step st event).
Proof.
  intros Hinv. destruct event as [searchEvents|documentViewEvent|customEvent|call outcome|];
    cbn [step].
  - unfold sendSearchEvents. destruct searchEvents as [|event events]; [exact Hinv|].
    cbn [length Nat.ltb Nat.leb].
    apply sendToService_as_sent; [exact Hinv|discriminate|reflexivity|].
    intros _. split; [discriminate|reflexivity].
  - apply sendToService_as_sent; [exact Hinv|discriminate|reflexivity|discriminate].
  - apply sendToService_as_sent; [exact Hinv|discriminate|reflexivity|].
    intros _. reflexivity.
  - apply settle_as_sent, Hinv.
  - unfold run_ready. destruct (ready st) as [|callback rest] eqn:Hready; [exact Hinv|].
    destruct Hinv as (Hopts & Hversion & Hcalls & Hwaiting & Hrest).
    rewrite Hready in Hrest. apply Forall_cons in Hrest. destruct Hrest as [Hcallback Hrest].
    destruct callback as [data path paramName]. unfold callback_as_left in Hcallback.
    cbn [deferred_data deferred_path deferred_paramName] in *.
    assert (Hst : as_sent opts (set_ready rest st)) by (repeat split; assumption).
    destruct data as [searchEvents|documentViewEvent|customEvent]; [| contradiction |].
    + destruct Hcallback as [Hne ->].
      apply sendToService_as_sent; [exact Hst|congruence|reflexivity|].
      intros _. split; [exact Hne|reflexivity].
    + subst path. apply sendToService_as_sent; [exact Hst|discriminate|reflexivity|].
      intros _. reflexivity.
Qed.

Lemma run_as_sent opts events st : as_sent opts st -> as_sent opts (run events st).
Proof.
  revert st. induction events as [|event events IH]; intros st Hinv; [exact Hinv|].
  simpl. apply IH, step_as_sent, Hinv.
Qed.

(** *** X15 *)

(** X15.  Whatever is sent, settles and runs on an endpoint, an empty list of
    search events is never posted, and none waits to be posted. *)
Theorem empty_batch_is_never_posted opts sendBeacon events :
  let st := run events (constructor opts sendBeacon) in
  (forall call parameters, (call, parameters) ∈ calls st ->
                            requestData parameters <> SearchEvents [])
  /\ (forall pending callback, (pending, callback) ∈ waiting st ->
                               deferred_data callback <> SearchEvents [])
  /\ (forall callback, callback ∈ ready st -> deferred_data callback <> SearchEvents []).
Proof.
  cbv zeta.
  destruct (run_as_sent opts events _ (as_sent_constructor opts sendBeacon))
    as (_ & _ & Hcalls & Hwaiting & Hready).
  rewrite Forall_forall in Hcalls. rewrite Forall_forall in Hwaiting.
  rewrite Forall_forall in Hready.
  assert (Hleft : forall callback, callback_as_left callback ->
                                   deferred_data callback <> SearchEvents []).
  { intros callback H. unfold callback_as_left in H.
    destruct (deferred_data callback); [|contradiction|discriminate].
    destruct H as [Hne _]. congruence. }
  split; [|split].
  - intros call parameters Hin. apply (Hcalls _ Hin).
  - intros pending callback Hin. apply Hleft, (Hwaiting _ Hin).
  - intros callback Hin. apply Hleft, (Hready _ Hin).
Qed.

(** *** X16 *)

(** X16.  Every call that a run leaves in flight is a POST of JSON, answered
    as text, to the path of the analytics service that goes with what it
    carries: [searches] for search events, [click] for a document view,
    [custom] for a custom event. *)
Theorem calls_go_to_the_path_of_their_data opts sendBeacon events call parameters :
  (call, parameters) ∈ calls (run events (constructor opts sendBeacon)) ->
  method parameters = "POST"
  /\ requestDataType parameters = "application/json"
  /\ responseType parameters = "text"
  /\ url parameters
     = mergePath (serviceUrl opts)
         ("/rest/v15/analytics/" +:+ path_of (requestData parameters)).
Proof.
  intros Hin.
  destruct (run_as_sent opts events _ (as_sent_constructor opts sendBeacon))
    as (_ & _ & Hcalls & _).
  rewrite Forall_forall in Hcalls.
  destruct (Hcalls _ Hin) as (Hm & _ & Hr & Ht & Hu & _). auto.
Qed.

Lemma calls_go_to_the_path_of_their_data_witness :
  exists parameters,
    (0%nat, parameters) ∈ calls one_search_sent
    /\ method parameters = "POST"
    /\ requestDataType parameters = "application/json"
    /\ responseType parameters = "text"
    /\ url parameters = "https://usageanalytics.coveo.com/rest/v15/analytics/searches".
Proof.
  eexists. 
  assert (H : (0%nat,
               {| errorsAsSuccess := false; method := "POST"; queryString := [];
                  requestData := SearchEvents ["search"];
                  url := "https://usageanalytics.coveo.com/rest/v15/analytics/searches";
                  responseType := "text"; requestDataType := "application/json" |})
              ∈ calls one_search_sent) by (vm_compute; left).
  split; [exact H|].
  exact (calls_go_to_the_path_of_their_data _ false [call_sendSearchEvents ["search"]] _ _ H).
Defined.

(** *** X17 *)

(** X17.  A document view event never waits for the pending request: no
    callback that waits or is ready carries one, in any run. *)
Theorem document_view_never_waits opts sendBeacon events documentViewEvent :
  let st := run events (constructor opts sendBeacon) in
  (forall pending callback, (pending, callback) ∈ waiting st ->
                            deferred_data callback <> ClickEvent documentViewEvent)
  /\ (forall callback, callback ∈ ready st ->
                       deferred_data callback <> ClickEvent documentViewEvent).
Proof.
  cbv zeta.
  destruct (run_as_sent opts events _ (as_sent_constructor opts sendBeacon))
    as (_ & _ & _ & Hwaiting & Hready).
  rewrite Forall_forall in Hwaiting. rewrite Forall_forall in Hready.
  assert (Hleft : forall callback, callback_as_left callback ->
                                   deferred_data callback <> ClickEvent documentViewEvent).
  { intros callback H. unfold callback_as_left in H.
    destruct (deferred_data callback); [discriminate|contradiction|discriminate]. }
  split.
  - intros pending callback Hin. apply Hleft, (Hwaiting _ Hin).
  - intros callback Hin. apply Hleft, (Hready _ Hin).
Qed.



(** *** X18 *)

(** Whether an event asks for something to be sent. *)
Definition asks_to_send (event : Event) : nat :=
  match event with
  | call_sendSearchEvents searchEvents => if (0 <? length searchEvents)%nat then 1 else 0
  | call_sendDocumentViewEvent _ => 1
  | call_sendCustomEvent _ => 1
  | call_settles _ _ => 0
  | callback_runs => 0
  end.

(** What has left or is still to leave: the calls made so far, the beacons,
    the callbacks that wait and those that are ready. *)
Definition accounted (st : State) : nat :=
  promises st + length (beacons st) + length (waiting st) + length (ready st).

Lemma sendToService_accounted data path paramName unload st :
  accounted (snd (sendToService data path paramName unload st)) = S (accounted st).
Proof.
  unfold sendToService, accounted. destruct unload.
  - unfold sendDataBeforeUnload. destruct (navigator_sendBeacon st); simpl.
    + rewrite length_app. simpl. lia.
    + lia.
  - destruct (pendingRequest st); simpl.
    + rewrite length_app. simpl. lia.
    + lia.
Qed.

Lemma settle_accounted call outcome st : accounted (settle call outcome st) = accounted st.
Proof.
  unfold settle. case_bool_decide as Hin; [|reflexivity].
  set (st1 := set_calls _ st).
  assert (Hany : forall st2,
             promises st2 = promises st -> beacons st2 = beacons st ->
             waiting st2 = waiting st -> ready st2 = ready st ->
             accounted
               (set_ready
                  (ready (set_pendingRequest None st2) ++
                   List.map snd (List.filter (fun w => (fst w =? call)%nat)
                                   (waiting (set_pendingRequest None st2))))
                  (set_waiting
                     (List.filter (fun w => negb (fst w =? call)%nat)
                        (waiting (set_pendingRequest None st2)))
                     (set_pendingRequest None st2)))
             = accounted st).
  { intros st2 Hp Hb Hw Hr. unfold accounted. simpl. rewrite Hp, Hb, Hw, Hr.
    rewrite length_app, length_map.
    pose proof (filter_partition_length (fun w : nat * Deferred => (fst w =? call)%nat)
                  (waiting st)).
    lia. }
  destruct outcome as [response|reason]; [|apply Hany; reflexivity].
  destruct (handleAnalyticsEventResponse response st1) as [st'|] eqn:Hh;
    [|apply Hany; reflexivity].
  apply handleAnalyticsEventResponse_frame in Hh.
  destruct Hh as (_ & _ & Hw & Hr & _ & Hb & Hp). apply Hany; assumption.
Qed.

Lemma step_accounted st event :
  accounted (step st event) = (accounted st + asks_to_send event)%nat.
Proof.
  destruct event as [searchEvents|documentViewEvent|customEvent|call outcome|];
    cbn [step asks_to_send].
  - unfold sendSearchEvents. destruct (0 <? length searchEvents)%nat.
    + rewrite sendToService_accounted. lia.
    + simpl. lia.
  - unfold sendDocumentViewEvent. rewrite sendToService_accounted. lia.
  - unfold sendCustomEvent. rewrite sendToService_accounted. lia.
  - rewrite settle_accounted. lia.
  - unfold run_ready. destruct (ready st) as [|callback rest] eqn:Hready; [lia|].
    rewrite sendToService_accounted. unfold accounted. simpl. rewrite Hready. simpl. lia.
Qed.

(** X18.  No send is lost and none is made twice: after any run, the calls
    made so far, the beacons, the callbacks that wait and the callbacks that
    are ready are as many as the sends that were asked for (an empty list of
    search events asks for none). *)
Theorem every_send_is_accounted_for opts sendBeacon events :
  accounted (run events (constructor opts sendBeacon))
  = foldr (fun event total => (asks_to_send event + total)%nat) 0%nat events.
Proof.
  assert (Hrun : forall st,
             accounted (run events st)
             = (accounted st
                + foldr (fun event total => (asks_to_send event + total)%nat) 0%nat events)%nat).
  { induction events as [|event events IH]; intros st; [simpl; lia|].
    simpl. rewrite IH, step_accounted. lia. }
  rewrite Hrun. reflexivity.
Qed.

(** *** X19 *)

Lemma callbacks_wait_again ready_now st pending :
  pendingRequest st = Some pending ->
  ready st = ready_now ->
  let st' := run (repeat callback_runs (length ready_now)) st in
  ready st' = []
  /\ waiting st' = waiting st ++ List.map (fun callback => (pending, callback)) ready_now
  /\ calls st' = calls st
  /\ pendingRequest st' = Some pending.
Proof.
  revert st. induction ready_now as [|callback rest IH]; intros st Hslot Hready.
  - simpl. rewrite app_nil_r. auto.
  - cbn [length repeat run fold_left step]. unfold run_ready. rewrite Hready.
    rewrite (send_waits _ _ _ pending) by exact Hslot. cbn [snd].
    destruct callback as [data path paramName].
    cbn [deferred_data deferred_path deferred_paramName].
    specialize (IH (set_waiting
                      (waiting (set_ready rest st) ++
                       [(pending, {| deferred_data := data; deferred_path := path;
                                     deferred_paramName := paramName |})])
                      (set_ready rest st)) Hslot eq_refl).
    cbv zeta in IH. unfold run in IH. destruct IH as (Hr & Hw & Hc & Hs).
    rewrite Hr, Hw, Hc, Hs. simpl. rewrite <- app_assoc. auto.
Qed.

(** X19.  The callbacks that wait on a call keep their order: when the call
    settles and they run, the first of them makes its call and takes the
    slot, and the others wait again, on that call, in the order they had. *)
Theorem waiting_sends_keep_their_order pending outcome first others st :
  serialized st ->
  pendingRequest st = Some pending ->
  ready st = [] ->
  List.map snd (waiting st) = first :: others ->
  let st' := run (call_settles pending outcome :: repeat callback_runs (S (length others))) st in
  exists parameters,
    calls st' = [(promises st, parameters)]
    /\ requestData parameters = deferred_data first
    /\ pendingRequest st' = Some (promises st)
    /\ waiting st' = List.map (fun callback => (promises st, callback)) others
    /\ ready st' = [].
Proof.
  intros Hser Hslot Hready Hwaiting.
  assert (Hin : pending ∈ fst <$> calls st).
  { unfold serialized in Hser. rewrite Hslot in Hser. destruct Hser as [[parameters ->] _].
    simpl. left. }
  assert (Hall : List.filter (fun w : nat * Deferred => (fst w =? pending)%nat) (waiting st)
                 = waiting st
                 /\ List.filter (fun w : nat * Deferred => negb (fst w =? pending)%nat)
                      (waiting st) = []).
  { unfold serialized in Hser. rewrite Hslot in Hser. destruct Hser as [_ Hon].
    clear -Hon. induction Hon as [|w ws Hw _ [IH1 IH2]]; [auto|].
    simpl. rewrite Hw, Nat.eqb_refl. simpl. rewrite IH1. auto. }
  destruct Hall as [Hmine Hothers].
  assert (Hcalls : List.filter (fun c : nat * IEndpointCallParameters =>
                                  negb (fst c =? pending)%nat) (calls st) = []).
  { unfold serialized in Hser. rewrite Hslot in Hser. destruct Hser as [[parameters ->] _].
    apply filter_other_single. }
  destruct (settle_empties_slot_and_keeps pending outcome st Hin)
    as (Hs1 & Hc1 & Hw1 & Hr1 & Hp1 & Hv1).
  rewrite Hcalls in Hc1. rewrite Hothers in Hw1.
  rewrite Hmine, Hready, Hwaiting in Hr1. simpl in Hr1.
  cbv zeta. cbn [run fold_left step repeat].
  set (settled := settle pending outcome st) in *.
  destruct (send_posts (deferred_data first) (deferred_path first) (deferred_paramName first)
              (set_ready others settled) Hs1)
    as (parameters & posted & Hsend & Hc2 & Hs2 & _ & _ & Hd2).
  assert (Hfirst : run_ready settled = posted).
  { unfold run_ready. rewrite Hr1, Hsend. reflexivity. }
  rewrite Hfirst.
  assert (Hposted : ready posted = others /\ waiting posted = []).
  { unfold sendToService in Hsend.
    change (pendingRequest (set_ready others settled)) with (pendingRequest settled) in Hsend.
    rewrite Hs1 in Hsend. unfold sendUsingEndpointCaller in Hsend.
    injection Hsend as <-. simpl. auto. }
  destruct Hposted as [Hr2 Hw2].
  destruct (callbacks_wait_again others posted (promises (set_ready others settled)) Hs2 Hr2)
    as (Hr3 & Hw3 & Hc3 & Hs3).
  unfold run in Hr3, Hw3, Hc3, Hs3.
  change (promises (set_ready others settled)) with (promises settled) in *.
  rewrite Hp1 in *.
  exists parameters. rewrite Hc3, Hc2, Hs3, Hw3, Hr3, Hw2.
  change (calls (set_ready others settled)) with (calls settled). rewrite Hc1.
  simpl. auto.
Qed.


Definition three_custom_events : State :=
  run [call_sendCustomEvent "a"; call_sendCustomEvent "b"; call_sendCustomEvent "c"]
    modern_browser.

Lemma waiting_sends_keep_their_order_witness :
  serialized three_custom_events
  /\ pendingRequest three_custom_events = Some 0%nat
  /\ List.map (fun w => deferred_data (snd w)) (waiting three_custom_events)
     = [CustomEvent "b"; CustomEvent "c"]
  /\ exists parameters,
      calls (run [call_settles 0 (Rejected {| statusCode := 500; body := "" |});
                  callback_runs; callback_runs] three_custom_events)
      = [(1%nat, parameters)]
      /\ requestData parameters = CustomEvent "b"
      /\ pendingRequest
           (run [call_settles 0 (Rejected {| statusCode := 500; body := "" |});
                 callback_runs; callback_runs] three_custom_events)
         = Some 1%nat
      /\ List.map (fun w => (fst w, deferred_data (snd w)))
           (waiting
              (run [call_settles 0 (Rejected {| statusCode := 500; body := "" |});
                    callback_runs; callback_runs] three_custom_events))
         = [(1%nat, CustomEvent "c")]
      /\ ready
           (run [call_settles 0 (Rejected {| statusCode := 500; body := "" |});
                 callback_runs; callback_runs] three_custom_events)
         = [].
Proof.
  assert (H : serialized three_custom_events).
  { apply run_serialized; [reflexivity|apply serialized_constructor]. }
  split; [exact H|]. split; [reflexivity|]. split; [reflexivity|].
  destruct (waiting_sends_keep_their_order 0 (Rejected {| statusCode := 500; body := "" |})
              {| deferred_data := CustomEvent "b"; deferred_path := "custom";
                 deferred_paramName := "customEvent" |}
              [{| deferred_data := CustomEvent "c"; deferred_path := "custom";
                  deferred_paramName := "customEvent" |}]
              three_custom_events H eq_refl eq_refl eq_refl)
    as (parameters & Hcalls & Hdata & Hslot & Hwaiting & Hready).
  exists parameters. cbn [length repeat] in *.
  split; [exact Hcalls|]. split; [exact Hdata|]. split; [exact Hslot|].
  split; [rewrite Hwaiting; reflexivity|exact Hready].
Defined.

(** *** X20 *)

Lemma handleAnalyticsEventResponse_keeps_session response st st' :
  handleAnalyticsEventResponse response st = Some st' ->
  (truthy (this_visitId st) = true -> truthy (this_visitId st') = true)
  /\ (is_Some (Cookie.get "visitorId" (cookies st)) ->
      is_Some (Cookie.get "visitorId" (cookies st'))).
Proof.
  assert (Hany : forall visit visitor : option string,
             let st1 := if truthy visit then set_this_visitId visit st else st in
             let st2 :=
               if truthy visitor
               then set_cookies
                      (Cookie.set "visitorId" (default "" visitor) VISITOR_COOKIE_TIME
                         (cookies st1)) st1
               else st1 in
             (truthy (this_visitId st) = true -> truthy (this_visitId st2) = true)
             /\ (is_Some (Cookie.get "visitorId" (cookies st)) ->
                 is_Some (Cookie.get "visitorId" (cookies st2)))).
  { intros visit visitor. cbv zeta.
    destruct (truthy visit) eqn:Hvisit, (truthy visitor) eqn:Hvisitor; simpl;
      unfold Cookie.get, Cookie.set; rewrite ?lookup_insert_eq; simpl; auto. }
  unfold handleAnalyticsEventResponse.
  destruct (truthy (response_visitId response)).
  - intros [= <-]. apply Hany.
  - destruct (searchEventResponses response) as [responses|].
    + destruct (Underscore.first responses) as [first|]; [|discriminate].
      intros [= <-]. apply Hany.
    + intros [= <-]. apply (Hany None None).
Qed.

Lemma step_keeps_session st event :
  (truthy (this_visitId st) = true -> truthy (this_visitId (step st event)) = true)
  /\ (is_Some (Cookie.get "visitorId" (cookies st)) ->
      is_Some (Cookie.get "visitorId" (cookies (step st event)))).
Proof.
  assert (Hsend : forall data path paramName unload st0,
             this_visitId (snd (sendToService data path paramName unload st0))
             = this_visitId st0
             /\ cookies (snd (sendToService data path paramName unload st0)) = cookies st0).
  { intros data path paramName unload st0. unfold sendToService, sendDataBeforeUnload.
    destruct unload.
    - destruct (navigator_sendBeacon st0); simpl; auto.
    - destruct (pendingRequest st0); simpl; auto. }
  destruct event as [searchEvents|documentViewEvent|customEvent|call outcome|]; cbn [step].
  - unfold sendSearchEvents. destruct (0 <? length searchEvents)%nat; [|simpl; auto].
    destruct (Hsend (SearchEvents searchEvents) "searches" "searchEvents" false st)
      as [-> ->]. auto.
  - unfold sendDocumentViewEvent.
    destruct (Hsend (ClickEvent documentViewEvent) "click" "clickEvent" true st)
      as [-> ->]. auto.
  - unfold sendCustomEvent.
    destruct (Hsend (CustomEvent customEvent) "custom" "customEvent" false st)
      as [-> ->]. auto.
  - unfold settle. case_bool_decide; [|auto]. simpl.
    destruct outcome as [response|reason]; [|simpl; auto].
    destruct (handleAnalyticsEventResponse response _) as [st'|] eqn:Hh; [|simpl; auto].
    apply handleAnalyticsEventResponse_keeps_session in Hh. simpl in Hh. exact Hh.
  - unfold run_ready. destruct (ready st) as [|callback rest]; [auto|].
    destruct (Hsend (deferred_data callback) (deferred_path callback)
                (deferred_paramName callback) false (set_ready rest st)) as [-> ->].
    simpl. auto.
Qed.

(** X20.  The session is never given up: once the endpoint holds a visit id,
    it holds one after whatever is sent and whatever response or failure
    comes back, and a [visitorId] cookie that is there stays there. *)
Theorem session_is_never_erased events st :
  truthy (this_visitId st) = true ->
  is_Some (Cookie.get "visitorId" (cookies st)) ->
  truthy (this_visitId (run events st)) = true
  /\ is_Some (Cookie.get "visitorId" (cookies (run events st))).
Proof.
  revert st. induction events as [|event events IH]; intros st Hvisit Hcookie; [auto|].
  simpl. destruct (step_keeps_session st event) as [Hv Hc]. apply IH; auto.
Qed.

Definition in_a_visit : State :=
  settle 0 (Fulfilled click_response) one_search_sent.

Lemma session_is_never_erased_witness :
  truthy (this_visitId in_a_visit) = true
  /\ is_Some (Cookie.get "visitorId" (cookies in_a_visit))
  /\ truthy (this_visitId
               (run [call_sendCustomEvent "c"; call_settles 1 (Fulfilled empty_batch)]
                  in_a_visit)) = true
  /\ is_Some (Cookie.get "visitorId"
                (cookies
                   (run [call_sendCustomEvent "c"; call_settles 1 (Fulfilled empty_batch)]
                      in_a_visit))).
Proof.
  assert (Hcookie : is_Some (Cookie.get "visitorId" (cookies in_a_visit)))
    by (exists "visitor"; reflexivity).
  split; [reflexivity|]. split; [exact Hcookie|].
  exact (session_is_never_erased
           [call_sendCustomEvent "c"; call_settles 1 (Fulfilled empty_batch)]
           in_a_visit eq_refl Hcookie).
Defined.

(** *** X21 *)

(** X21.  The visit id is asked of the service once: when the answer to
    [getCurrentVisitIdPromise] holds an id that is not empty, the promise is
    resolved with it, and from then on [getCurrentVisitIdPromise] resolves
    with that id without a call and leaves the endpoint as it is. *)
Theorem visit_id_is_asked_once response st :
  id response <> "" ->
  let st' := snd (getCurrentVisitIdPromise_settles (Fulfilled response) st) in
  fst (getCurrentVisitIdPromise_settles (Fulfilled response) st) = Fulfilled (id response)
  /\ getCurrentVisitIdPromise st' = (resolved_with (id response), st')
  /\ getCurrentVisitId st' = (Some (id response), st').
Proof.
  intros Hid. cbv zeta. split; [reflexivity|].
  unfold getCurrentVisitIdPromise, getCurrentVisitId. simpl.
  destruct (String.eqb_spec (id response) ""); [contradiction|]. auto.
Qed.

Lemma visit_id_is_asked_once_witness :
  id {| id := "visit-9" |} <> ""
  /\ fst (getCurrentVisitIdPromise_settles (Fulfilled {| id := "visit-9" |}) modern_browser)
     = Fulfilled "visit-9"
  /\ getCurrentVisitIdPromise
       (snd (getCurrentVisitIdPromise_settles (Fulfilled {| id := "visit-9" |}) modern_browser))
     = (resolved_with "visit-9",
        snd (getCurrentVisitIdPromise_settles (Fulfilled {| id := "visit-9" |}) modern_browser))
  /\ getCurrentVisitId
       (snd (getCurrentVisitIdPromise_settles (Fulfilled {| id := "visit-9" |}) modern_browser))
     = (Some "visit-9",
        snd (getCurrentVisitIdPromise_settles (Fulfilled {| id := "visit-9" |}) modern_browser)).
Proof.
  assert (H : id {| id := "visit-9" |} <> "") by discriminate.
  split; [exact H|].
  exact (visit_id_is_asked_once {| id := "visit-9" |} modern_browser H).
Defined.

(** *** X22 *)

(** X22.  While the endpoint holds no visit id, [getCurrentVisitIdPromise]
    asks the service with a GET on the [visit] path, the access token its
    only parameter; when that call fails the promise is rejected with the
    failure, nothing is kept, and the next [getCurrentVisitIdPromise] asks
    again. *)
Theorem visit_id_failure_is_not_kept reason st :
  truthy (this_visitId st) = false ->
  token (options st) <> "" ->
  exists call,
    getCurrentVisitIdPromise st = (waits_for call, st)
    /\ get_method call = "GET"
    /\ get_url call
       = serviceUrl (options st) +:+ "/rest/" +:+ analytics_version st +:+ "/analytics/visit"
    /\ get_requestData call = {[ "access_token" := param_string (token (options st)) ]}
    /\ getCurrentVisitIdPromise_settles (Rejected reason) st = (Rejected reason, st)
    /\ getCurrentVisitIdPromise
         (snd (getCurrentVisitIdPromise_settles (Rejected reason) st))
       = (waits_for call, st).
Proof.
  intros Hnone Htoken. unfold getCurrentVisitIdPromise, getCurrentVisitId. simpl.
  rewrite Hnone. eexists. split; [reflexivity|].
  unfold getFromService, extend. simpl.
  destruct (String.eqb_spec (token (options st)) ""); [contradiction|]. simpl.
  split; [reflexivity|]. split; [reflexivity|].
  split; [apply (left_id_L ∅ (∪))|]. auto.
Qed.

Lemma visit_id_failure_is_not_kept_witness :
  truthy (this_visitId modern_browser) = false
  /\ token (options modern_browser) <> ""
  /\ exists call,
      getCurrentVisitIdPromise modern_browser = (waits_for call, modern_browser)
      /\ get_method call = "GET"
      /\ get_url call = "https://usageanalytics.coveo.com/rest/v15/analytics/visit"
      /\ get_requestData call = {[ "access_token" := param_string "token" ]}
      /\ getCurrentVisitIdPromise_settles (Rejected {| statusCode := 503; body := "" |})
           modern_browser
         = (Rejected {| statusCode := 503; body := "" |}, modern_browser)
      /\ getCurrentVisitIdPromise
           (snd (getCurrentVisitIdPromise_settles
                   (Rejected {| statusCode := 503; body := "" |}) modern_browser))
         = (waits_for call, modern_browser).
Proof.
  assert (H : token (options modern_browser) <> "") by discriminate.
  split; [reflexivity|]. split; [exact H|].
  exact (visit_id_failure_is_not_kept {| statusCode := 503; body := "" |}
           modern_browser eq_refl H).
Defined.

(** *** X23 *)

(** The response carries the visit id: on itself, or, when it has no visit
    id of its own, on the first of its search event responses.  Of a visitor
    id nothing is asked. *)
Definition carries_visit (response : Response) (visit : string) : Prop :=
  visit <> ""
  /\ (response_visitId response = Some visit
      \/ (truthy (response_visitId response) = false
          /\ exists first rest,
              searchEventResponses response = Some (first :: rest)
              /\ visitId first = Some visit)).

(** X23.  An event response that carries a visit id spares the GET, whether
    or not it carries a visitor id too: once it has been handled,
    [getCurrentVisitIdPromise] resolves with that visit id without a call. *)
Theorem event_response_spares_the_visit_call response visit st :
  carries_visit response visit ->
  exists st',
    handleAnalyticsEventResponse response st = Some st'
    /\ getCurrentVisitIdPromise st' = (resolved_with visit, st')
    /\ calls st' = calls st.
Proof.
  intros (Hvisit & Hpair).
  destruct visit as [|c visit']; [contradiction|].
  unfold handleAnalyticsEventResponse, getCurrentVisitIdPromise, getCurrentVisitId.
  destruct Hpair as [Hv|(Hno & first & rest & Hresponses & Hv)].
  - rewrite Hv. simpl.
    destruct (truthy (response_visitorId response)); eexists; repeat split; reflexivity.
  - rewrite Hno, Hresponses. simpl. rewrite Hv. simpl.
    destruct (truthy (visitorId first)); eexists; repeat split; reflexivity.
Qed.

(** A response to a single event with a visit id and no visitor id. *)
Definition visit_only_response : Response :=
  {| response_visitId := Some "visit-3"; response_visitorId := None;
     searchEventResponses := None |}.

Lemma event_response_spares_the_visit_call_witness :
  carries_visit visit_only_response "visit-3"
  /\ exists st',
      handleAnalyticsEventResponse visit_only_response modern_browser = Some st'
      /\ getCurrentVisitIdPromise st' = (resolved_with "visit-3", st')
      /\ calls st' = calls modern_browser.
Proof.
  assert (H : carries_visit visit_only_response "visit-3").
  { split; [discriminate|]. left. reflexivity. }
  split; [exact H|].
  exact (event_response_spares_the_visit_call visit_only_response "visit-3"
           modern_browser H).
Defined.

(** *** X24 *)

(** X24.  [getTopQueries] asks with a GET on the [topQueries] path of the
    statistics; the page size and the query text it was given reach the
    service as they are, and the access token, when the endpoint has one,
    is added beside them. *)
Theorem getTopQueries_sends_its_parameters params st :
  let call := getTopQueries params st in
  get_method call = "GET"
  /\ get_responseType call = "json"
  /\ get_url call
     = serviceUrl (options st) +:+ "/rest/" +:+ analytics_version st +:+ "/stats/topQueries"
  /\ get_requestData call !! "pageSize" = Some (param_number (pageSize params))
  /\ get_requestData call !! "queryText" = Some (param_string (queryText params))
  /\ get_requestData call !! "access_token"
     = (if String.eqb (token (options st)) "" then None
        else Some (param_string (token (options st))))
  /\ forall key, key <> "pageSize" -> key <> "queryText" -> key <> "access_token" ->
                 get_requestData call !! key = None.
Proof.
  cbv zeta. unfold getTopQueries, getFromService, extend, buildAnalyticsUrl.
  cbn [get_method get_responseType get_url get_requestData].
  split; [reflexivity|]. split; [reflexivity|]. split; [reflexivity|].
  assert (Hgiven : forall key,
             ({[ "pageSize" := param_number (pageSize params);
                 "queryText" := param_string (queryText params) ]} : gmap string param) !! key
             = if decide (key = "pageSize") then Some (param_number (pageSize params))
               else if decide (key = "queryText") then Some (param_string (queryText params))
               else None).
  { intros key. destruct (decide (key = "pageSize")) as [->|H1].
    - apply lookup_insert_eq.
    - rewrite lookup_insert_ne by congruence.
      destruct (decide (key = "queryText")) as [->|H2].
      + apply lookup_singleton_eq.
      + apply lookup_singleton_ne. congruence. }
  destruct (String.eqb (token (options st)) ""); cbn [negb].
  - rewrite !Hgiven. split; [reflexivity|]. split; [reflexivity|]. split; [reflexivity|].
    intros key H1 H2 _. rewrite Hgiven.
    destruct (decide (key = "pageSize")); [contradiction|].
    destruct (decide (key = "queryText")); [contradiction|reflexivity].
  - split; [|split; [|split]].
    + apply lookup_union_Some_l. rewrite Hgiven. reflexivity.
    + apply lookup_union_Some_l. rewrite Hgiven. reflexivity.
    + rewrite lookup_union_r by (rewrite Hgiven; reflexivity).
      apply lookup_singleton_eq.
    + intros key H1 H2 H3. apply lookup_union_None. split.
      * rewrite Hgiven.
        destruct (decide (key = "pageSize")); [contradiction|].
        destruct (decide (key = "queryText")); [contradiction|reflexivity].
      * apply lookup_singleton_ne. congruence.
Qed.

End AnalyticsEndpointMore.
